(** * OpenTargets front-end: the data-shaping and view-state logic of [src/App.jsx]

    A shallow embedding of the two React components of the application:

    - [Row]: label formatting ([formatLabel]), the dense score vector
      ([chartData]), the per-row view state ([open], [tabValue]) and the
      resize-listener effect;
    - [App]: the loader ([fetchData]) with its three observable states and
      the table body.

    Modelling conventions.

    - A JavaScript string is a [string]; category identifiers are ASCII, and
      [toLowerCase] / [toUpperCase] are the case conversions of
      [String.prototype] on the ASCII range (where they act on the 26 letters
      and leave every other code unit alone).
    - A JavaScript number is an IEEE-754 binary64 value, [spec_float].
    - React state is passed explicitly; an effect with a cleanup is a pair of
      transitions on the window's listener list. *)

From Stdlib Require Import List String Ascii Bool Arith ZArith Lia.
From Stdlib Require Import Permutation DecimalString.
From Stdlib Require Import Floats.SpecFloat.
Import ListNotations.

Local Open Scope string_scope.
Local Open Scope list_scope.
Local Open Scope nat_scope.

(** ** JavaScript strings *)

Module JsString.

(** The case conversions act on the 26 ASCII letters.  The identifiers of
    the API are ASCII; a code unit above 127 is left as it is. *)
Definition isLowerLetter (c : ascii) : bool :=
  let n := nat_of_ascii c in (97 <=? n) && (n <=? 122).

Definition isUpperLetter (c : ascii) : bool :=
  let n := nat_of_ascii c in (65 <=? n) && (n <=? 90).

Definition toUpperCaseChar (c : ascii) : ascii :=
  if isLowerLetter c then ascii_of_nat (nat_of_ascii c - 32) else c.

Definition toLowerCaseChar (c : ascii) : ascii :=
  if isUpperLetter c then ascii_of_nat (nat_of_ascii c + 32) else c.

(** [String.prototype.toUpperCase] *)
Fixpoint toUpperCase (s : string) : string :=
  match s with
  | EmptyString => EmptyString
  | String c r => String (toUpperCaseChar c) (toUpperCase r)
  end.

(** [String.prototype.toLowerCase] *)
Fixpoint toLowerCase (s : string) : string :=
  match s with
  | EmptyString => EmptyString
  | String c r => String (toLowerCaseChar c) (toLowerCase r)
  end.

(** [s.charAt(0)]: the first code unit as a string, the empty string when
    there is none. *)
Definition charAt0 (s : string) : string :=
  match s with
  | EmptyString => EmptyString
  | String c _ => String c EmptyString
  end.

(** [s.slice(1)]: everything after the first code unit. *)
Definition slice1 (s : string) : string :=
  match s with
  | EmptyString => EmptyString
  | String _ r => r
  end.

(** [s.split(sep)] for a one-character separator: the pieces between the
    occurrences of [sep]; never an empty array (the empty string splits
    into one empty piece). *)
Fixpoint split (sep : ascii) (s : string) : list string :=
  match s with
  | EmptyString => [EmptyString]
  | String c r =>
      if Ascii.eqb c sep then EmptyString :: split sep r
      else match split sep r with
           | w :: ws => String c w :: ws
           | [] => [String c EmptyString]
           end
  end.

(** [words.join(sep)] *)
Fixpoint join (sep : string) (words : list string) : string :=
  match words with
  | [] => EmptyString
  | [w] => w
  | w :: ws => w ++ sep ++ join sep ws
  end.

(** Does the code unit occur in the string? *)
Fixpoint contains (c : ascii) (s : string) : bool :=
  match s with
  | EmptyString => false
  | String d r => Ascii.eqb d c || contains c r
  end.

End JsString.

Import JsString.

(** ** Numbers *)

(** A JavaScript number is a binary64 float. *)
Definition number : Type := spec_float.

(** The literal [0]. *)
Definition js_zero : number := S754_zero false.

(** The doubles nearest to 0.8 and 0.2: mantissa [0x1999999999999A] with
    exponents -53 and -55. *)
Definition js_0_8 : number := S754_finite false 7205759403792794 (-53).
Definition js_0_2 : number := S754_finite false 7205759403792794 (-55).

(** ToBoolean on a number: [+0], [-0] and [NaN] are falsy. *)
Definition number_truthy (x : number) : bool :=
  match x with
  | S754_zero _ | S754_nan => false
  | _ => true
  end.

(** ** The rows of the response

    The shape that the GraphQL query asks for:
    [rows { target { id approvedSymbol approvedName } score
            datatypeScores { id score } }]. *)

Module Target.
Record t : Type := mk {
  id : string;
  approvedSymbol : string;
  approvedName : string
}.
End Target.

Module DatatypeScore.
Record t : Type := mk {
  id : string;
  score : number
}.
End DatatypeScore.

Module AssociationRow.
Record t : Type := mk {
  target : Target.t;
  score : number;
  datatypeScores : list DatatypeScore.t
}.
End AssociationRow.

(** ** [Row]: label formatting and the normalized score vector *)

(** The callback of [map] inside [formatLabel]. *)
Definition formatWord (word : string) : string :=
  if String.eqb (toLowerCase word) "rna" then "RNA"
  else toUpperCase (charAt0 word) ++ slice1 word.

Definition formatLabel (label : string) : string :=
  join " " (map formatWord (split "_" label)).

Definition allDataTypes : list string :=
  ["literature"; "rna_expression"; "genetic_association"; "somatic_mutation";
   "known_drug"; "animal_model"; "affected_pathway"].

(** One entry of [chartData]: [{ name, value }]. *)
Record ChartDatum : Type := mkDatum {
  name : string;
  value : number
}.

(** [Array.prototype.find] is [List.find]: the first element that satisfies
    the predicate, [None] for [undefined].  A found element is an object,
    hence truthy, so [foundScore ? foundScore.score : 0] is a match on the
    option. *)
Definition chartData (row : AssociationRow.t) : list ChartDatum :=
  map (fun type =>
         let foundScore :=
           find (fun score => String.eqb (DatatypeScore.id score) type)
                (AssociationRow.datatypeScores row) in
         {| name := formatLabel type;
            value := match foundScore with
                     | Some found => DatatypeScore.score found
                     | None => js_zero
                     end |})
      allDataTypes.

(** The [value] that [chartData] gives at position [i]. *)
Definition valueAt (row : AssociationRow.t) (i : nat) : option number :=
  option_map value (nth_error (chartData row) i).

(** *** The spec's reading of label formatting *)

(** A segment with its first character capitalized. *)
Definition capitalizeFirst (w : string) : string :=
  match w with
  | EmptyString => EmptyString
  | String c r => String (toUpperCaseChar c) r
  end.

(** "each segment is capitalized except the literal token rna, which is
    rendered as the fixed uppercase acronym RNA" *)
Definition segmentLabel (w : string) : string :=
  if String.eqb (toLowerCase w) "rna" then "RNA" else capitalizeFirst w.

(** [ws] are the underscore-delimited segments of [s]. *)
Definition segmentsOf (s : string) (ws : list string) : Prop :=
  ws <> [] /\ Forall (fun w => contains "_" w = false) ws /\ join "_" ws = s.

(** ** [Row]: the view state *)

(** [const [open, setOpen] = useState(false)] and
    [const [tabValue, setTabValue] = useState(0)]. *)
Record RowState : Type := mkRowState {
  open : bool;
  tabValue : nat
}.

Definition initialRowState : RowState :=
  {| open := false; tabValue := 0 |}.

Definition setOpen (v : bool) (st : RowState) : RowState :=
  {| open := v; tabValue := tabValue st |}.

Definition setTabValue (v : nat) (st : RowState) : RowState :=
  {| open := open st; tabValue := v |}.

(** [handleTabChange = (event, newValue) => setTabValue(newValue)] *)
Definition handleTabChange (newValue : nat) (st : RowState) : RowState :=
  setTabValue newValue st.

(** The toggle button: [onClick={() => setOpen(!open)}]. *)
Definition toggle (st : RowState) : RowState :=
  setOpen (negb (open st)) st.

(** What the row shows.  [Collapse in={open} unmountOnExit] hides the panel
    when the row is not open; inside it [tabValue === 0] shows the bar chart
    and [tabValue === 1] the radar chart. *)
Inductive ViewState : Type :=
| Collapsed
| ExpandedBar
| ExpandedRadar
| ExpandedNoChart.

Definition viewState (st : RowState) : ViewState :=
  if open st then
    if tabValue st =? 0 then ExpandedBar
    else if tabValue st =? 1 then ExpandedRadar
    else ExpandedNoChart
  else Collapsed.

(** The user's controls on one row.  The tab control has the two tabs
    "Bar Chart" (index 0) and "Radar Chart" (index 1). *)
Inductive RowEvent : Type :=
| ClickToggle
| SelectTab (newValue : nat).

Definition rowStep (st : RowState) (ev : RowEvent) : RowState :=
  match ev with
  | ClickToggle => toggle st
  | SelectTab newValue => handleTabChange newValue st
  end.

Definition rowRun (evs : list RowEvent) (st : RowState) : RowState :=
  fold_left rowStep evs st.

(** *** What [Row] renders *)

(** [labels] and the [data] of the one dataset of a chart. *)
Record ChartJsData : Type := mkChartJsData {
  labels : list string;
  datasetLabel : string;
  data : list number
}.

Definition barChartData (row : AssociationRow.t) : ChartJsData :=
  {| labels := map name (chartData row);
     datasetLabel := "Association Score";
     data := map value (chartData row) |}.

Definition radarChartData (row : AssociationRow.t) : ChartJsData :=
  {| labels := map name (chartData row);
     datasetLabel := Target.approvedSymbol (AssociationRow.target row);
     data := map value (chartData row) |}.

Definition targetUrl (row : AssociationRow.t) : string :=
  "https://platform.opentargets.org/target/"
  ++ Target.approvedName (AssociationRow.target row).

(** The content of the collapsible cell. *)
Inductive Panel : Type :=
| Hidden
| BarPanel (d : ChartJsData)
| RadarPanel (d : ChartJsData)
| TabsOnly.

Record RowView : Type := mkRowView {
  toggleGlyph : string;
  linkHref : string;
  linkText : string;
  nameCell : string;
  panel : Panel
}.

(** The cells of the row and the collapsible panel; the score cell
    ([row.score.toFixed(3)]), the chart options and the styling are not
    part of the model. *)
Definition renderRow (row : AssociationRow.t) (st : RowState) : RowView :=
  {| toggleGlyph := if open st then "-" else "+";
     linkHref := targetUrl row;
     linkText := Target.approvedSymbol (AssociationRow.target row);
     nameCell := Target.approvedName (AssociationRow.target row);
     panel := if open st then
                if tabValue st =? 0 then BarPanel (barChartData row)
                else if tabValue st =? 1 then RadarPanel (radarChartData row)
                else TabsOnly
              else Hidden |}.

(** ** [Row]: the resize effect

    [useEffect(() => { ...; setTimeout(() => handleResize(), 0);
       window.addEventListener('resize', handleResize);
       return () => window.removeEventListener('resize', handleResize); },
     [open, tabValue])]

    Every run of the effect creates a new closure [handleResize] over the
    [open] and [tabValue] of that render.  Listeners are compared by
    identity, so a closure carries a serial number. *)

Record Handler : Type := mkHandler {
  serial : nat;
  owner : nat;          (* the row whose effect created the closure *)
  seenOpen : bool;      (* [open] as captured *)
  seenTab : nat         (* [tabValue] as captured *)
}.

Inductive Chart : Type := BarChart | RadarChart.

(** A mounted [Row]: its state and the handler its pending cleanup will
    remove. *)
Record Mounted : Type := mkMounted {
  rowState : RowState;
  registered : Handler
}.

Record World : Type := mkWorld {
  resizeListeners : list Handler;     (* window's listeners for 'resize' *)
  timers : list Handler;              (* pending [setTimeout] callbacks *)
  nextSerial : nat;
  instances : nat -> option Mounted;  (* the rows of the table, by index *)
  panelMounted : nat -> bool;         (* the content of the row's [Collapse] is in the DOM *)
  resizeCalls : list (nat * Chart)    (* calls of [chart.resize()], oldest first *)
}.

Definition sameHandler (h k : Handler) : bool := serial h =? serial k.

(** [window.addEventListener]: a listener already in the list is not added
    again. *)
Definition addEventListener (h : Handler) (ls : list Handler) : list Handler :=
  if existsb (sameHandler h) ls then ls else ls ++ [h].

(** [window.removeEventListener] *)
Definition removeEventListener (h : Handler) (ls : list Handler) : list Handler :=
  filter (fun k => negb (sameHandler h k)) ls.

Definition setInstance (i : nat) (m : option Mounted)
    (f : nat -> option Mounted) : nat -> option Mounted :=
  fun j => if j =? i then m else f j.

Definition setFlag (i : nat) (b : bool) (f : nat -> bool) : nat -> bool :=
  fun j => if j =? i then b else f j.

(** [barChartRef.current] / [radarChartRef.current]: attached while the
    chart is mounted.  The charts are children of
    [<Collapse in={open} unmountOnExit>]: the content of the collapse is
    mounted when the row opens and stays mounted, after the row is closed,
    until the exit transition has ended; inside it [tabValue === 0] mounts
    the bar chart and [tabValue === 1] the radar chart. *)
Definition barChartRef (w : World) (i : nat) : bool :=
  match instances w i with
  | Some x => panelMounted w i && (tabValue (rowState x) =? 0)
  | None => false
  end.

Definition radarChartRef (w : World) (i : nat) : bool :=
  match instances w i with
  | Some x => panelMounted w i && (tabValue (rowState x) =? 1)
  | None => false
  end.

(** The body of [handleResize], for the closure [h]. *)
Definition handleResize (h : Handler) (w : World) : World :=
  let call c :=
    {| resizeListeners := resizeListeners w; timers := timers w;
       nextSerial := nextSerial w; instances := instances w;
       panelMounted := panelMounted w;
       resizeCalls := resizeCalls w ++ [(owner h, c)] |} in
  if seenOpen h then
    if (seenTab h =? 0) && barChartRef w (owner h) then call BarChart
    else if (seenTab h =? 1) && radarChartRef w (owner h) then call RadarChart
    else w
  else w.

(** One run of the effect body for row [i] in state [st]. *)
Definition runEffect (i : nat) (st : RowState) (w : World) : World :=
  let h := {| serial := nextSerial w; owner := i;
              seenOpen := open st; seenTab := tabValue st |} in
  {| resizeListeners := addEventListener h (resizeListeners w);
     timers := timers w ++ [h];
     nextSerial := S (nextSerial w);
     instances := setInstance i (Some {| rowState := st; registered := h |})
                              (instances w);
     panelMounted := panelMounted w;
     resizeCalls := resizeCalls w |}.

(** The cleanup returned by the run that [m] remembers. *)
Definition runCleanup (m : Mounted) (w : World) : World :=
  {| resizeListeners := removeEventListener (registered m) (resizeListeners w);
     timers := timers w;
     nextSerial := nextSerial w;
     instances := instances w;
     panelMounted := panelMounted w;
     resizeCalls := resizeCalls w |}.

(** The content of the collapse of row [i] is mounted ([b] true) or
    unmounted. *)
Definition setPanel (i : nat) (b : bool) (w : World) : World :=
  {| resizeListeners := resizeListeners w;
     timers := timers w;
     nextSerial := nextSerial w;
     instances := instances w;
     panelMounted := setFlag i b (panelMounted w);
     resizeCalls := resizeCalls w |}.

Definition sameDeps (a b : RowState) : bool :=
  Bool.eqb (open a) (open b) && (tabValue a =? tabValue b).

(** A state update of row [i]: React re-renders (an open row has the
    content of its collapse mounted, a row that is closed keeps what is
    mounted until the exit transition ends), and when a dependency of the
    effect changed it runs the old cleanup and then the effect again. *)
Definition update (i : nat) (f : RowState -> RowState) (w : World) : World :=
  match instances w i with
  | None => w
  | Some m =>
      let st' := f (rowState m) in
      if sameDeps (rowState m) st' then w
      else runEffect i st'
             (runCleanup m (setPanel i (open st' || panelMounted w i) w))
  end.

Inductive Event : Type :=
| Mount (i : nat)
| Unmount (i : nat)
| User (i : nat) (ev : RowEvent)
| TimerFires
| WindowResize
| CollapseExited (i : nat).   (* the exit transition of the collapse has ended *)

Definition step (w : World) (ev : Event) : World :=
  match ev with
  | Mount i =>
      match instances w i with
      | Some _ => w
      | None =>
          runEffect i initialRowState (setPanel i (open initialRowState) w)
      end
  | Unmount i =>
      match instances w i with
      | None => w
      | Some m =>
          let w' := runCleanup m w in
          {| resizeListeners := resizeListeners w'; timers := timers w';
             nextSerial := nextSerial w';
             instances := setInstance i None (instances w');
             panelMounted := setFlag i false (panelMounted w');
             resizeCalls := resizeCalls w' |}
      end
  | User i ev => update i (fun st => rowStep st ev) w
  | TimerFires =>
      match timers w with
      | [] => w
      | h :: rest =>
          handleResize h
            {| resizeListeners := resizeListeners w; timers := rest;
               nextSerial := nextSerial w; instances := instances w;
               panelMounted := panelMounted w;
               resizeCalls := resizeCalls w |}
      end
  | WindowResize =>
      fold_left (fun w' h => handleResize h w') (resizeListeners w) w
  | CollapseExited i =>
      match instances w i with
      | None => w
      | Some m => if open (rowState m) then w else setPanel i false w
      end
  end.

Definition run (evs : list Event) (w : World) : World :=
  fold_left step evs w.

(** Before anything is mounted. *)
Definition emptyWorld : World :=
  {| resizeListeners := []; timers := []; nextSerial := 0;
     instances := fun _ => None; panelMounted := fun _ => false;
     resizeCalls := [] |}.

(** The resize listeners that row [i] has on the window. *)
Definition listenersOf (i : nat) (w : World) : list Handler :=
  filter (fun h => owner h =? i) (resizeListeners w).

Definition isCollapsed (i : nat) (w : World) : bool :=
  match instances w i with
  | Some m => negb (open (rowState m))
  | None => false
  end.

(** ** [App]: JavaScript values and exceptions *)

(** The values a parsed JSON payload is made of, and [undefined]. *)
#[warnings="-register-all"]
Inductive JsValue : Type :=
| VUndefined
| VNull
| VBool (b : bool)
| VNum (x : number)
| VStr (s : string)
| VArr (items : list JsValue)
| VObj (props : list (string * JsValue)).

Inductive ErrorKind : Type := PlainError | TypeError | SyntaxError.

(** A thrown [Error] object; the loader only reads its [message]. *)
Record exn : Type := mkExn {
  kind : ErrorKind;
  message : string
}.

(** ToBoolean *)
Definition truthy (v : JsValue) : bool :=
  match v with
  | VUndefined | VNull => false
  | VBool b => b
  | VNum x => number_truthy x
  | VStr s => negb (String.eqb s "")
  | VArr _ | VObj _ => true
  end.

(** The own property [k] of an object, whose properties are listed with
    distinct keys. *)
Fixpoint lookup (k : string) (props : list (string * JsValue)) : option JsValue :=
  match props with
  | [] => None
  | (k', v) :: rest => if String.eqb k' k then Some v else lookup k rest
  end.

Section Engine.

(** The message of the [TypeError] that the engine throws when a property
    is read from [null] or [undefined]; the wording is the engine's. *)
Variable nullishReadMessage : JsValue -> string -> string.

(** [v.k], for the property names of the query ([data], [disease],
    [associatedTargets], [rows], [target], [id]); none of them is defined
    on a prototype, so only an object can have one. *)
Definition getProp (v : JsValue) (k : string) : exn + JsValue :=
  match v with
  | VUndefined | VNull =>
      inl {| kind := TypeError; message := nullishReadMessage v k |}
  | VObj props =>
      inr (match lookup k props with Some x => x | None => VUndefined end)
  | VBool _ | VNum _ | VStr _ | VArr _ => inr VUndefined
  end.

(** [v?.k] *)
Definition getPropOpt (v : JsValue) (k : string) : exn + JsValue :=
  match v with
  | VUndefined | VNull => inr VUndefined
  | _ => getProp v k
  end.

(** *** The loader *)

(** What [fetch] resolves to: the status line and what [response.json()]
    settles to (a rejection with the parser's [SyntaxError], or the parsed
    value). *)
Record Response : Type := mkResponse {
  status : nat;
  json : exn + JsValue
}.

(** [response.ok]: a status in the range 200-299. *)
Definition ok (r : Response) : bool :=
  (200 <=? status r) && (status r <=? 299).

(** [fetch] rejects (no connection) or resolves with a response. *)
Inductive FetchOutcome : Type :=
| FetchRejected (e : exn)
| FetchResolved (r : Response).

(** [targets], [isLoading], [error] of [App]. *)
Record AppState : Type := mkAppState {
  targets : JsValue;
  isLoading : bool;
  error : option string
}.

(** [useState([])], [useState(true)], [useState(null)] *)
Definition initialAppState : AppState :=
  {| targets := VArr []; isLoading := true; error := None |}.

(** Computations that update the state of [App] and may throw; the state
    reached before a throw is kept. *)
Definition Eff (A : Type) : Type := AppState -> AppState * (exn + A).

Definition ret {A} (a : A) : Eff A := fun s => (s, inr a).

Definition bind {A B} (m : Eff A) (f : A -> Eff B) : Eff B :=
  fun s => match m s with
           | (s', inl e) => (s', inl e)
           | (s', inr a) => f a s'
           end.

Definition throw {A} (e : exn) : Eff A := fun s => (s, inl e).

(** A promise that has settled, awaited. *)
Definition await {A} (r : exn + A) : Eff A := fun s => (s, r).

Definition setTargets (v : JsValue) : Eff unit :=
  fun s => ({| targets := v; isLoading := isLoading s; error := error s |},
            inr tt).

Definition setIsLoading (b : bool) : Eff unit :=
  fun s => ({| targets := targets s; isLoading := b; error := error s |},
            inr tt).

Definition setError (e : option string) : Eff unit :=
  fun s => ({| targets := targets s; isLoading := isLoading s; error := e |},
            inr tt).

(** [try { body } catch (err) { handler err } finally { finalizer }] *)
Definition tryCatchFinally {A} (body : Eff A) (handler : exn -> Eff A)
    (finalizer : Eff unit) : Eff A :=
  fun s =>
    let (s1, r1) := body s in
    let (s2, r2) := match r1 with
                    | inl e => handler e s1
                    | inr a => (s1, inr a)
                    end in
    let (s3, r3) := finalizer s2 in
    (s3, match r3 with inl e => inl e | inr _ => r2 end).

Notation "x <- m ;; k" := (bind m (fun x => k))
  (at level 61, m at next level, right associativity).
Notation "m ;; k" := (bind m (fun _ => k))
  (at level 61, right associativity).

Definition newError (msg : string) : exn :=
  {| kind := PlainError; message := msg |}.

(** [result.data?.disease?.associatedTargets?.rows] *)
Definition rowsChainOpt (result : JsValue) : exn + JsValue :=
  match getProp result "data" with
  | inl e => inl e
  | inr d =>
      match getPropOpt d "disease" with
      | inl e => inl e
      | inr dis =>
          match getPropOpt dis "associatedTargets" with
          | inl e => inl e
          | inr at_ => getPropOpt at_ "rows"
          end
      end
  end.

(** [result.data.disease.associatedTargets.rows] *)
Definition rowsChain (result : JsValue) : exn + JsValue :=
  match getProp result "data" with
  | inl e => inl e
  | inr d =>
      match getProp d "disease" with
      | inl e => inl e
      | inr dis =>
          match getProp dis "associatedTargets" with
          | inl e => inl e
          | inr at_ => getProp at_ "rows"
          end
      end
  end.

(** [fetchData], given what the one [fetch] call settles to. *)
Definition fetchData (outcome : FetchOutcome) : Eff unit :=
  setIsLoading true ;;
  setError None ;;
  tryCatchFinally
    (response <- await (match outcome with
                        | FetchRejected e => inl e
                        | FetchResolved r => inr r
                        end) ;;
     if negb (ok response) then
       throw (newError "Network response was not ok")
     else
       result <- await (json response) ;;
       found <- await (rowsChainOpt result) ;;
       if truthy found then
         rows <- await (rowsChain result) ;;
         setTargets rows
       else
         throw (newError "Data structure from API is not as expected."))
    (fun err => setError (Some (message err)))
    (setIsLoading false).

(** The state of [App] once the effect of the mount has finished. *)
Definition loaded (outcome : FetchOutcome) : AppState :=
  fst (fetchData outcome initialAppState).

(** *** What [App] renders *)

Inductive BodyRow : Type :=
| DataRow (key : JsValue) (row : JsValue)   (* [<Row key=... row=... />] *)
| PlaceholderRow (text : string).

Inductive AppView : Type :=
| LoadingView (text : string)
| ErrorAlert (text : string)
| TableView (body : list BodyRow)
| RenderThrows (e : exn)
| OutsideResponseShape.

(** [targets.map((row) => <Row key={row.target.id} row={row} />)] *)
Fixpoint rowElements (rows : list JsValue) : exn + list BodyRow :=
  match rows with
  | [] => inr []
  | row :: rest =>
      match getProp row "target" with
      | inl e => inl e
      | inr t =>
          match getProp t "id" with
          | inl e => inl e
          | inr key =>
              match rowElements rest with
              | inl e => inl e
              | inr els => inr (DataRow key row :: els)
              end
          end
      end
  end.

(** The children of [TableBody].  [targets] is an array in every response
    of the shape of the query; what a truthy non-array at the rows path
    would render is left out. *)
Definition tableBody (targets : list JsValue) : exn + list BodyRow :=
  if 0 <? List.length targets then rowElements targets
  else inr [PlaceholderRow "No data available."].

(** The table, the last [return] of [App]. *)
Definition renderTable (s : AppState) : AppView :=
  match targets s with
  | VArr rows =>
      match tableBody rows with
      | inl e => RenderThrows e
      | inr body => TableView body
      end
  | _ => OutsideResponseShape
  end.

(** [error] is [null] or a string: it is truthy when it is a non-empty
    string. *)
Definition render (s : AppState) : AppView :=
  if isLoading s then LoadingView "Fetching data from Open Targets..."
  else
    match error s with
    | Some msg =>
        if negb (String.eqb msg "") then
          ErrorAlert ("Error fetching data: " ++ msg)
        else renderTable s
    | None => renderTable s
    end.

Definition isDataRow (r : BodyRow) : bool :=
  match r with DataRow _ _ => true | PlaceholderRow _ => false end.

(** The data rows and the placeholder rows on screen. *)
Definition dataRows (v : AppView) : list BodyRow :=
  match v with
  | TableView body => filter isDataRow body
  | _ => []
  end.

Definition placeholderRows (v : AppView) : list BodyRow :=
  match v with
  | TableView body => filter (fun r => negb (isDataRow r)) body
  | _ => []
  end.

(** *** The failure kinds of the error taxonomy *)

Inductive FailureKind : Type :=
| TransportFailure     (* non-success HTTP status *)
| ParseFailure         (* the payload is not JSON *)
| ShapeMismatch.       (* JSON without the nested rows path *)

(** The object member [k] of [v], when [v] is an object that has it. *)
Definition member (k : string) (v : JsValue) : option JsValue :=
  match v with
  | VObj props => lookup k props
  | _ => None
  end.

(** The value at [data.disease.associatedTargets.rows], when the payload
    has that path. *)
Definition rowsAtPath (v : JsValue) : option JsValue :=
  match member "data" v with
  | Some d =>
      match member "disease" d with
      | Some dis =>
          match member "associatedTargets" dis with
          | Some at_ => member "rows" at_
          | None => None
          end
      | None => None
      end
  | None => None
  end.

Definition failureKind (outcome : FetchOutcome) : option FailureKind :=
  match outcome with
  | FetchRejected _ => None
  | FetchResolved r =>
      if negb (ok r) then Some TransportFailure
      else match json r with
           | inl _ => Some ParseFailure
           | inr v => match rowsAtPath v with
                      | None => Some ShapeMismatch
                      | Some _ => None
                      end
           end
  end.

(** The engine's own messages (of the JSON parser, of a read from
    [null]) are not empty. *)
Definition engineMessagesNonEmpty (outcome : FetchOutcome) : Prop :=
  (forall v k, nullishReadMessage v k <> "") /\
  (forall r e, outcome = FetchResolved r -> json r = inl e -> message e <> "").

End Engine.

(** *** Typed rows as payload values *)

Definition scoreToValue (s : DatatypeScore.t) : JsValue :=
  VObj [("id", VStr (DatatypeScore.id s)); ("score", VNum (DatatypeScore.score s))].

Definition rowToValue (row : AssociationRow.t) : JsValue :=
  let t := AssociationRow.target row in
  VObj [("target", VObj [("id", VStr (Target.id t));
                         ("approvedSymbol", VStr (Target.approvedSymbol t));
                         ("approvedName", VStr (Target.approvedName t))]);
        ("score", VNum (AssociationRow.score row));
        ("datatypeScores",
         VArr (map scoreToValue (AssociationRow.datatypeScores row)))].

(** A payload of the expected shape with the given rows. *)
Definition payload (rows : list JsValue) : JsValue :=
  VObj [("data",
         VObj [("disease",
                VObj [("associatedTargets", VObj [("rows", VArr rows)])])])].

(** The wording of V8 (Chrome, Node.js) for a read from [null] or
    [undefined]. *)
Definition v8ReadMessage (v : JsValue) (k : string) : string :=
  "Cannot read properties of "
  ++ (match v with VNull => "null" | _ => "undefined" end)
  ++ " (reading '" ++ k ++ "')".

(** The labels and values that reach the visible chart. *)
Definition shownData (v : RowView) : option (list string * list number) :=
  match panel v with
  | BarPanel d | RadarPanel d => Some (labels d, data d)
  | Hidden | TabsOnly => None
  end.

(** *** The invariant of the listener bookkeeping *)

Definition uniqueSerials (ls : list Handler) : Prop :=
  forall a b, In a ls -> In b ls -> serial a = serial b -> a = b.

(** Serial numbers in use are below the next one and identify a closure;
    a mounted row owns exactly the handler its cleanup will remove, and
    that handler saw the row's current state; an unmounted row owns none. *)
Record wellFormed (w : World) : Prop := mkWellFormed {
  wf_fresh : Forall (fun h => serial h < nextSerial w) (resizeListeners w);
  wf_unique : uniqueSerials (resizeListeners w);
  wf_owned : forall i,
    listenersOf i w = match instances w i with
                      | Some m => [registered m]
                      | None => []
                      end;
  wf_current : forall i m, instances w i = Some m ->
    seenOpen (registered m) = open (rowState m) /\
    seenTab (registered m) = tabValue (rowState m)
}.

(** The state between a cleanup and the next run of the effect of row [i]:
    as [wellFormed], but row [i] owns no listener. *)
Definition vacant (i : nat) (w : World) : Prop :=
  Forall (fun h => serial h < nextSerial w) (resizeListeners w) /\
  uniqueSerials (resizeListeners w) /\
  listenersOf i w = [] /\
  forall j, j <> i ->
    listenersOf j w = match instances w j with
                      | Some m => [registered m]
                      | None => []
                      end /\
    forall m, instances w j = Some m ->
      seenOpen (registered m) = open (rowState m) /\
      seenTab (registered m) = tabValue (rowState m).

(** The member [k] of [v], or [undefined]. *)
Definition memberOr (k : string) (v : JsValue) : JsValue :=
  match member k v with
  | Some x => x
  | None => VUndefined
  end.

(** The state [ready(rows)]. *)
Definition ready (rows : list JsValue) : AppState :=
  {| targets := VArr rows; isLoading := false; error := None |}.

(** The state [error(message)] entered from the state [s]. *)
Definition failed (s : AppState) (msg : string) : AppState :=
  {| targets := targets s; isLoading := false; error := Some msg |}.

(** A response with the given status whose body is the JSON value [v]. *)
Definition jsonResponse (code : nat) (v : JsValue) : FetchOutcome :=
  FetchResolved {| status := code; json := inr v |}.

(** A response with status 500 and an HTML body, on which
    [response.json()] would reject. *)
Definition serverError : FetchOutcome :=
  FetchResolved
    {| status := 500;
       json := inl {| kind := SyntaxError;
                      message := "Unexpected token < in JSON at position 0" |} |}.

(** *** Sample rows *)

Definition egfr : Target.t :=
  {| Target.id := "ENSG00000146648";
     Target.approvedSymbol := "EGFR";
     Target.approvedName := "epidermal growth factor receptor" |}.

(** A row with the scores [{genetic_association: 0.8, literature: 0.2}]. *)
Definition sparseRow : AssociationRow.t :=
  {| AssociationRow.target := egfr;
     AssociationRow.score := js_0_8;
     AssociationRow.datatypeScores :=
       [ {| DatatypeScore.id := "genetic_association"; DatatypeScore.score := js_0_8 |};
         {| DatatypeScore.id := "literature"; DatatypeScore.score := js_0_2 |} ] |}.

(** A row that lists [literature] twice. *)
Definition duplicateRow : AssociationRow.t :=
  {| AssociationRow.target := egfr;
     AssociationRow.score := js_0_8;
     AssociationRow.datatypeScores :=
       [ {| DatatypeScore.id := "known_drug"; DatatypeScore.score := js_0_2 |};
         {| DatatypeScore.id := "literature"; DatatypeScore.score := js_0_8 |};
         {| DatatypeScore.id := "literature"; DatatypeScore.score := js_0_2 |} ] |}.

(** *** Notions used by the further properties *)

(** Every code unit of the string is ASCII. *)
Fixpoint asciiOnly (s : string) : bool :=
  match s with
  | EmptyString => true
  | String c r => (nat_of_ascii c <? 128) && asciiOnly r
  end.

(** The identifier is one of the seven of [allDataTypes]. *)
Definition knownCategory (ident : string) : bool :=
  existsb (String.eqb ident) allDataTypes.

(** The row with only the scores of known categories. *)
Definition onlyKnown (row : AssociationRow.t) : AssociationRow.t :=
  {| AssociationRow.target := AssociationRow.target row;
     AssociationRow.score := AssociationRow.score row;
     AssociationRow.datatypeScores :=
       filter (fun s => knownCategory (DatatypeScore.id s))
              (AssociationRow.datatypeScores row) |}.

(** The row with another list of scores. *)
Definition withScores (row : AssociationRow.t) (l : list DatatypeScore.t)
    : AssociationRow.t :=
  {| AssociationRow.target := AssociationRow.target row;
     AssociationRow.score := AssociationRow.score row;
     AssociationRow.datatypeScores := l |}.

(** A row whose only score is for a category outside the seven. *)
Definition foreignRow : AssociationRow.t :=
  withScores sparseRow
    [ {| DatatypeScore.id := "clinical_trial"; DatatypeScore.score := js_0_8 |} ].

(** The number of clicks on the toggle among the events. *)
Definition toggleCount (evs : list RowEvent) : nat :=
  List.length (filter (fun ev => match ev with
                                 | ClickToggle => true
                                 | SelectTab _ => false
                                 end) evs).

(** The tab selected last among the events, [d] when none was. *)
Definition lastTab (evs : list RowEvent) (d : nat) : nat :=
  fold_left (fun t ev => match ev with
                         | ClickToggle => t
                         | SelectTab v => v
                         end) evs d.

(** The tab control offers the indices 0 and 1. *)
Definition offeredTab (ev : RowEvent) : bool :=
  match ev with
  | ClickToggle => true
  | SelectTab v => v <=? 1
  end.

(** The chart that is on screen for a row, if any. *)
Definition visibleChart (m : option Mounted) : option Chart :=
  match m with
  | Some x =>
      match viewState (rowState x) with
      | ExpandedBar => Some BarChart
      | ExpandedRadar => Some RadarChart
      | Collapsed | ExpandedNoChart => None
      end
  | None => None
  end.

(** The chart that a call of the handler [h] resizes, if any. *)
Definition resizeTarget (h : Handler) (w : World) : option Chart :=
  if seenOpen h then
    if (seenTab h =? 0) && barChartRef w (owner h) then Some BarChart
    else if (seenTab h =? 1) && radarChartRef w (owner h) then Some RadarChart
    else None
  else None.

(** The chart of row [i] that is in the DOM, if any. *)
Definition mountedChart (w : World) (i : nat) : option Chart :=
  match instances w i with
  | Some x =>
      if panelMounted w i then
        if tabValue (rowState x) =? 0 then Some BarChart
        else if tabValue (rowState x) =? 1 then Some RadarChart
        else None
      else None
  | None => None
  end.

(** An open row has the content of its collapse mounted; an unmounted row
    has nothing mounted. *)
Definition panelsFollow (w : World) : Prop :=
  forall i,
    match instances w i with
    | Some m => open (rowState m) = true -> panelMounted w i = true
    | None => panelMounted w i = false
    end.

(** The calls of [chart.resize()] for row [i] among [calls]. *)
Definition callsFor (i : nat) (calls : list (nat * Chart)) : list (nat * Chart) :=
  filter (fun c => fst c =? i) calls.

(** [null] or [undefined]. *)
Definition nullish (v : JsValue) : bool :=
  match v with
  | VUndefined | VNull => true
  | _ => false
  end.

(** What is found along [data], [disease], [associatedTargets], [rows],
    with [undefined] for what is missing. *)
Definition rowsValue (v : JsValue) : JsValue :=
  memberOr "rows"
    (memberOr "associatedTargets" (memberOr "disease" (memberOr "data" v))).

(** The state after a successful load that stored [rows]. *)
Definition loadedWith (rows : JsValue) : AppState :=
  {| targets := rows; isLoading := false; error := None |}.

(** The element of a row can be created: [row.target.id] can be read. *)
Definition keyable (row : JsValue) : bool :=
  negb (nullish row) && negb (nullish (memberOr "target" row)).

(** The [row] prop of a data row. *)
Definition rowOf (r : BodyRow) : option JsValue :=
  match r with
  | DataRow _ row => Some row
  | PlaceholderRow _ => None
  end.

(** A payload of the expected shape whose [rows] member is [v]. *)
Definition payloadWith (v : JsValue) : JsValue :=
  VObj [("data",
         VObj [("disease",
                VObj [("associatedTargets", VObj [("rows", v)])])])].

(** A rejection and a parse failure whose error has the empty message. *)
Definition silentError : exn := {| kind := PlainError; message := "" |}.

(** ** [toFixed(3)]: the score cell, the axis ticks and the tooltips

    [Number.prototype.toFixed] with three fraction digits (ECMA-262,
    21.1.3.3): [NaN] and the infinities print as [Number::toString] prints
    them; otherwise, for the absolute value [x], the integer [n] for which
    [n / 1000 - x] is as close to zero as possible (the larger when there
    are two) is printed with a point before its last three digits, after a
    minus sign when the number is below zero.  From [10^21] on
    [toFixed] falls back on [Number::toString]; that branch is outside the
    model ([None]). *)

(** The integer nearest to [1000 * m * 2^e], the larger of two. *)
Definition thousandths (m : positive) (e : Z) : Z :=
  if (0 <=? e)%Z then (1000 * Zpos m * 2 ^ e)%Z
  else ((2000 * Zpos m + 2 ^ (- e)) / 2 ^ (1 - e))%Z.

(** [m * 2^e >= 10^21] *)
Definition atLeast1e21 (m : positive) (e : Z) : bool :=
  if (0 <=? e)%Z then (10 ^ 21 <=? Zpos m * 2 ^ e)%Z
  else (10 ^ 21 * 2 ^ (- e) <=? Zpos m)%Z.

Definition digit (d : Z) : ascii := ascii_of_nat (48 + Z.to_nat d).

(** The decimal digits of a non-negative integer, "0" for zero. *)
Definition decimal (n : Z) : string :=
  NilZero.string_of_uint (N.to_uint (Z.to_N n)).

(** [n] thousandths, printed with three fraction digits. *)
Definition fixed3 (n : Z) : string :=
  decimal (n / 1000) ++ "." ++
  String (digit (n / 100 mod 10))
    (String (digit (n / 10 mod 10)) (String (digit (n mod 10)) "")).

Definition toFixed3 (x : number) : option string :=
  match x with
  | S754_nan => Some "NaN"
  | S754_infinity false => Some "Infinity"
  | S754_infinity true => Some "-Infinity"
  | S754_zero _ => Some "0.000"
  | S754_finite s m e =>
      if atLeast1e21 m e then None
      else Some ((if s then "-" else "") ++ fixed3 (thousandths m e))%string
  end.

(** [<TableCell>{row.score.toFixed(3)}</TableCell>] *)
Definition scoreCell (row : AssociationRow.t) : option string :=
  toFixed3 (AssociationRow.score row).

(** The [label] callback of the tooltips of both charts, for a dataset
    whose label is the string [datasetLabel] (on a string, [label || '']
    is the string itself) and the parsed value [parsed] ([None] for
    [null]). *)
Definition tooltipLabel (datasetLabel : string) (parsed : option number)
    : option string :=
  let label := datasetLabel in
  let label :=
    if negb (String.eqb label "") then (label ++ ": ")%string else label in
  match parsed with
  | Some y =>
      match toFixed3 y with
      | Some t => Some (label ++ t)%string
      | None => None
      end
  | None => Some label
  end.

(** The number is between 0 and 1, both included. *)
Definition unitInterval (x : number) : bool :=
  match x with
  | S754_zero _ => true
  | S754_finite false m e =>
      if (0 <=? e)%Z then (Zpos m * 2 ^ e <=? 1)%Z
      else (Zpos m <=? 2 ^ (- e))%Z
  | _ => false
  end.

(** [n] is the number of thousandths nearest to the absolute value of
    [x], the larger of two that are equally near. *)
Definition nearestThousandth (x : number) (n : Z) : Prop :=
  match x with
  | S754_zero _ => n = 0%Z
  | S754_finite _ m e =>
      (2 ^ Z.max 0 (- e) * (2 * n - 1) <= 2000 * Zpos m * 2 ^ Z.max 0 e
         < 2 ^ Z.max 0 (- e) * (2 * n + 1))%Z
  | S754_infinity _ | S754_nan => False
  end.

(** * Properties *)

(** ** Sample runs *)

Example formatLabel_samples :
  formatLabel "rna_expression" = "RNA Expression" /\
  formatLabel "known_drug" = "Known Drug" /\
  formatLabel "RnA" = "RNA" /\
  formatLabel "mRNA_seq" = "MRNA Seq" /\
  formatLabel "_a" = " A" /\
  formatLabel "" = "".
Proof. repeat split. Qed.

Example split_samples :
  split "_" "a_b" = ["a"; "b"] /\
  split "_" "a_" = ["a"; ""] /\
  split "_" "_" = [""; ""] /\
  split "_" "" = [""].
Proof. repeat split. Qed.

Example chartData_sample :
  chartData sparseRow =
    [ {| name := "Literature"; value := js_0_2 |};
      {| name := "RNA Expression"; value := js_zero |};
      {| name := "Genetic Association"; value := js_0_8 |};
      {| name := "Somatic Mutation"; value := js_zero |};
      {| name := "Known Drug"; value := js_zero |};
      {| name := "Animal Model"; value := js_zero |};
      {| name := "Affected Pathway"; value := js_zero |} ].
Proof. reflexivity. Qed.

(** Mount, expand, resize the window, switch to the radar tab, let the
    two oldest timers fire, resize again: the bar chart is resized once and
    the radar chart once; the timers, whose handlers saw the collapsed row
    and the bar tab, resize nothing. *)
Example resize_sample :
  resizeCalls (run [Mount 0; User 0 ClickToggle; WindowResize;
                    User 0 (SelectTab 1); TimerFires; TimerFires;
                    WindowResize] emptyWorld)
    = [(0, BarChart); (0, RadarChart)].
Proof. reflexivity. Qed.

(** Expand a row and close it again before the timeout of the expansion
    fires: the timeout still resizes the bar chart, which is in the DOM
    until the exit transition of the collapse ends. *)
Example stale_timeout_sample :
  resizeCalls (run [Mount 0; User 0 ClickToggle; User 0 ClickToggle;
                    TimerFires; TimerFires; TimerFires] emptyWorld)
    = [(0, BarChart)] /\
  resizeCalls (run [Mount 0; User 0 ClickToggle; User 0 ClickToggle;
                    CollapseExited 0;
                    TimerFires; TimerFires; TimerFires] emptyWorld)
    = [].
Proof. split; reflexivity. Qed.

Example loaded_samples :
  loaded v8ReadMessage (jsonResponse 200 (payload [rowToValue sparseRow]))
    = ready [rowToValue sparseRow] /\
  loaded v8ReadMessage (jsonResponse 200 (VObj [("errors", VArr [])]))
    = failed initialAppState "Data structure from API is not as expected." /\
  loaded v8ReadMessage (jsonResponse 404 (payload []))
    = failed initialAppState "Network response was not ok" /\
  loaded v8ReadMessage
    (FetchRejected {| kind := TypeError; message := "Failed to fetch" |})
    = failed initialAppState "Failed to fetch".
Proof. repeat split. Qed.

(** ** Strings *)

Lemma toUpperCaseChar_idem (c : ascii) :
  toUpperCaseChar (toUpperCaseChar c) = toUpperCaseChar c.
Proof. destruct c as [[] [] [] [] [] [] [] []]; reflexivity. Qed.

Lemma toLowerCaseChar_upper (c : ascii) :
  toLowerCaseChar (toUpperCaseChar c) = toLowerCaseChar c.
Proof. destruct c as [[] [] [] [] [] [] [] []]; reflexivity. Qed.

Lemma toUpperCaseChar_underscore (c : ascii) :
  Ascii.eqb (toUpperCaseChar c) "_" = Ascii.eqb c "_".
Proof. destruct c as [[] [] [] [] [] [] [] []]; reflexivity. Qed.

Lemma toLowerCaseChar_space (c : ascii) :
  Ascii.eqb (toLowerCaseChar c) " " = Ascii.eqb c " ".
Proof. destruct c as [[] [] [] [] [] [] [] []]; reflexivity. Qed.

Lemma toLowerCaseChar_underscore (c : ascii) :
  Ascii.eqb (toLowerCaseChar c) "_" = Ascii.eqb c "_".
Proof. destruct c as [[] [] [] [] [] [] [] []]; reflexivity. Qed.

Lemma contains_app (c : ascii) (a b : string) :
  contains c (a ++ b) = contains c a || contains c b.
Proof.
  induction a as [|d a IH]; simpl; [reflexivity|].
  rewrite IH. now rewrite orb_assoc.
Qed.

Lemma contains_toLowerCase_space (s : string) :
  contains " " (toLowerCase s) = contains " " s.
Proof.
  induction s as [|c s IH]; simpl; [reflexivity|].
  now rewrite toLowerCaseChar_space, IH.
Qed.

Lemma contains_toLowerCase_underscore (s : string) :
  contains "_" (toLowerCase s) = contains "_" s.
Proof.
  induction s as [|c s IH]; simpl; [reflexivity|].
  now rewrite toLowerCaseChar_underscore, IH.
Qed.

(** *** [split] and [join] are inverse to each other *)

Lemma split_not_nil (sep : ascii) (s : string) : split sep s <> [].
Proof.
  destruct s as [|c r]; simpl; [discriminate|].
  destruct (Ascii.eqb c sep); [discriminate|].
  destruct (split sep r); discriminate.
Qed.

Lemma join_cons (sep w : string) (ws : list string) :
  ws <> [] -> join sep (w :: ws) = (w ++ sep ++ join sep ws)%string.
Proof. destruct ws; [congruence | reflexivity]. Qed.

Lemma join_split (sep : ascii) (s : string) :
  join (String sep "") (split sep s) = s.
Proof.
  induction s as [|c r IH]; simpl; [reflexivity|].
  destruct (Ascii.eqb_spec c sep) as [->|Hne].
  - rewrite join_cons by apply split_not_nil. simpl. now rewrite IH.
  - pose proof (split_not_nil sep r) as Hnil.
    destruct (split sep r) as [|w ws]; [congruence|].
    destruct ws as [|w' ws']; rewrite <- IH; reflexivity.
Qed.

Lemma split_pieces_free (sep : ascii) (s : string) :
  Forall (fun w => contains sep w = false) (split sep s).
Proof.
  induction s as [|c r IH]; simpl.
  - constructor; [reflexivity | constructor].
  - destruct (Ascii.eqb_spec c sep) as [->|Hne].
    + constructor; [reflexivity | exact IH].
    + destruct (split sep r) as [|w ws].
      * constructor; [|constructor]. simpl.
        destruct (Ascii.eqb_spec c sep); [contradiction | reflexivity].
      * inversion IH as [|? ? Hw Hws]; subst.
        constructor; [|exact Hws]. simpl.
        destruct (Ascii.eqb_spec c sep); [contradiction | exact Hw].
Qed.

Lemma split_free (sep : ascii) (w : string) :
  contains sep w = false -> split sep w = [w].
Proof.
  induction w as [|c r IH]; simpl; intros H; [reflexivity|].
  apply orb_false_iff in H as [Hc Hr].
  rewrite Hc, (IH Hr). reflexivity.
Qed.

Lemma split_app_sep (sep : ascii) (w rest : string) :
  contains sep w = false ->
  split sep (w ++ String sep rest)%string = w :: split sep rest.
Proof.
  induction w as [|c r IH]; simpl; intros H.
  - now rewrite Ascii.eqb_refl.
  - apply orb_false_iff in H as [Hc Hr].
    rewrite Hc, (IH Hr). reflexivity.
Qed.

Lemma split_join (sep : ascii) (ws : list string) :
  ws <> [] ->
  Forall (fun w => contains sep w = false) ws ->
  split sep (join (String sep "") ws) = ws.
Proof.
  induction ws as [|w ws IH]; intros Hnil Hfree; [congruence|].
  inversion Hfree as [|? ? Hw Hws]; subst.
  destruct ws as [|w' ws'].
  - simpl. now apply split_free.
  - rewrite join_cons by discriminate.
    change (String sep "" ++ ?x)%string with (String sep x).
    rewrite split_app_sep by exact Hw.
    rewrite IH; [reflexivity | discriminate | exact Hws].
Qed.

Lemma segmentsOf_split (s : string) : segmentsOf s (split "_" s).
Proof.
  repeat split.
  - apply split_not_nil.
  - apply split_pieces_free.
  - apply join_split.
Qed.

Lemma segmentsOf_unique (s : string) (ws : list string) :
  segmentsOf s ws -> ws = split "_" s.
Proof.
  intros (Hnil & Hfree & <-). symmetry. now apply split_join.
Qed.

(** *** The callback of [formatLabel] *)

Lemma formatWord_segmentLabel (w : string) : formatWord w = segmentLabel w.
Proof.
  unfold formatWord, segmentLabel.
  destruct (String.eqb (toLowerCase w) "rna"); [reflexivity|].
  destruct w; reflexivity.
Qed.

Lemma formatLabel_segmentLabel (s : string) :
  formatLabel s = join " " (map segmentLabel (split "_" s)).
Proof.
  unfold formatLabel. f_equal. apply map_ext, formatWord_segmentLabel.
Qed.

(** C2: every identifier has exactly one list of underscore-free segments;
    [formatLabel] maps a segment whose lowercase form is "rna" to "RNA",
    capitalizes the first character of any other segment and leaves the
    rest of it alone, and joins the results with single spaces. *)
Theorem formatLabel_by_segments :
  (forall s, segmentsOf s (split "_" s)) /\
  (forall s ws, segmentsOf s ws ->
     formatLabel s = join " " (map segmentLabel ws)) /\
  (forall w, toLowerCase w = "rna" -> segmentLabel w = "RNA") /\
  (forall c r, toLowerCase (String c r) <> "rna" ->
     segmentLabel (String c r) = String (toUpperCaseChar c) r) /\
  segmentLabel "" = "".
Proof.
  split; [exact segmentsOf_split|].
  split.
  { intros s ws H. rewrite (segmentsOf_unique s ws H).
    apply formatLabel_segmentLabel. }
  split.
  { intros w H. unfold segmentLabel. now rewrite H. }
  split; [|reflexivity].
  intros c r H. unfold segmentLabel.
  destruct (String.eqb_spec (toLowerCase (String c r)) "rna"); [contradiction|].
  reflexivity.
Qed.

Lemma formatLabel_by_segments_witness :
  segmentsOf "rna_expression" ["rna"; "expression"] /\
  formatLabel "rna_expression" = "RNA Expression".
Proof.
  assert (H : segmentsOf "rna_expression" ["rna"; "expression"]).
  { split; [discriminate|]. split; [|reflexivity].
    repeat constructor. }
  split; [exact H|].
  exact (proj1 (proj2 formatLabel_by_segments) "rna_expression"
           ["rna"; "expression"] H).
Defined.

(** *** Idempotence *)

Lemma capitalizeFirst_idem (w : string) :
  capitalizeFirst (capitalizeFirst w) = capitalizeFirst w.
Proof. destruct w; simpl; [reflexivity|]. now rewrite toUpperCaseChar_idem. Qed.

Lemma toLowerCase_capitalizeFirst (w : string) :
  toLowerCase (capitalizeFirst w) = toLowerCase w.
Proof. destruct w; simpl; [reflexivity|]. now rewrite toLowerCaseChar_upper. Qed.

Lemma segmentLabel_capitalized (w : string) :
  capitalizeFirst (segmentLabel w) = segmentLabel w.
Proof.
  unfold segmentLabel.
  destruct (String.eqb (toLowerCase w) "rna"); [reflexivity|].
  apply capitalizeFirst_idem.
Qed.

Lemma segmentLabel_idem (w : string) :
  segmentLabel (segmentLabel w) = segmentLabel w.
Proof.
  unfold segmentLabel at 2 3.
  destruct (String.eqb (toLowerCase w) "rna") eqn:E; [reflexivity|].
  unfold segmentLabel.
  rewrite toLowerCase_capitalizeFirst, E.
  apply capitalizeFirst_idem.
Qed.

Lemma segmentLabel_free (w : string) :
  contains "_" w = false -> contains "_" (segmentLabel w) = false.
Proof.
  intros H. unfold segmentLabel.
  destruct (String.eqb (toLowerCase w) "rna"); [reflexivity|].
  destruct w as [|c r]; [reflexivity|].
  simpl in *. now rewrite toUpperCaseChar_underscore.
Qed.

Lemma join_space_free (ws : list string) :
  Forall (fun w => contains "_" w = false) ws ->
  contains "_" (join " " ws) = false.
Proof.
  induction 1 as [|w ws Hw Hws IH]; [reflexivity|].
  destruct ws as [|w' ws']; [exact Hw|].
  rewrite join_cons by discriminate.
  rewrite !contains_app, Hw, IH. reflexivity.
Qed.

Lemma formatLabel_free (s : string) : contains "_" (formatLabel s) = false.
Proof.
  rewrite formatLabel_segmentLabel.
  apply join_space_free, Forall_map.
  eapply Forall_impl; [|apply (split_pieces_free "_" s)].
  intros w. apply segmentLabel_free.
Qed.

Lemma formatLabel_one_segment (t : string) :
  contains "_" t = false -> formatLabel t = segmentLabel t.
Proof.
  intros H. rewrite formatLabel_segmentLabel, (split_free _ _ H). reflexivity.
Qed.

Lemma spaced_not_rna (t : string) :
  contains " " t = true -> String.eqb (toLowerCase t) "rna" = false.
Proof.
  intros H. destruct (String.eqb_spec (toLowerCase t) "rna") as [E|]; [|reflexivity].
  rewrite <- contains_toLowerCase_space, E in H. discriminate.
Qed.

Lemma capitalizeFirst_spaced (x y : string) :
  capitalizeFirst x = x ->
  capitalizeFirst (x ++ " " ++ y) = (x ++ " " ++ y)%string.
Proof.
  destruct x as [|c r]; simpl; intros H; [reflexivity|].
  injection H as ->. reflexivity.
Qed.

(** A joined list of formatted segments is a fixed point of the segment
    formatting. *)
Lemma segmentLabel_joined (ws : list string) :
  ws <> [] ->
  let t := join " " (map segmentLabel ws) in segmentLabel t = t.
Proof.
  destruct ws as [|w ws]; [congruence|]. intros _.
  destruct ws as [|w' ws']; simpl; [apply segmentLabel_idem|].
  unfold segmentLabel at 1.
  rewrite spaced_not_rna.
  - apply capitalizeFirst_spaced, segmentLabel_capitalized.
  - rewrite !contains_app. simpl. now rewrite orb_true_r.
Qed.

Lemma formatLabel_idem (s : string) :
  formatLabel (formatLabel s) = formatLabel s.
Proof.
  rewrite (formatLabel_one_segment _ (formatLabel_free s)).
  rewrite formatLabel_segmentLabel.
  apply segmentLabel_joined, split_not_nil.
Qed.

Lemma app_assoc_s (a b c : string) :
  ((a ++ b) ++ c = a ++ (b ++ c))%string.
Proof. induction a as [|x a IH]; simpl; [reflexivity | now rewrite IH]. Qed.

Lemma split_app (sep : ascii) (a b : string) :
  split sep (a ++ String sep b) = (split sep a ++ split sep b)%list.
Proof.
  induction a as [|c a IH]; simpl.
  - now rewrite Ascii.eqb_refl.
  - destruct (Ascii.eqb c sep); [now rewrite IH|].
    rewrite IH. pose proof (split_not_nil sep a) as H.
    destruct (split sep a); [congruence | reflexivity].
Qed.

Lemma join_app (sep : string) (l1 l2 : list string) :
  l1 <> [] -> l2 <> [] ->
  join sep (l1 ++ l2) = (join sep l1 ++ sep ++ join sep l2)%string.
Proof.
  intros H1 H2. induction l1 as [|w l1 IH]; [congruence|].
  destruct l1 as [|w' l1'].
  - simpl app. now rewrite join_cons.
  - change ((w :: w' :: l1') ++ l2)%list with (w :: ((w' :: l1') ++ l2))%list.
    rewrite join_cons by discriminate.
    rewrite IH by discriminate.
    rewrite (join_cons sep w (w' :: l1')) by discriminate.
    now rewrite !app_assoc_s.
Qed.

Lemma formatLabel_distributes (a b : string) :
  formatLabel (a ++ "_" ++ b) = (formatLabel a ++ " " ++ formatLabel b)%string.
Proof.
  unfold formatLabel.
  change ("_" ++ b)%string with (String "_" b).
  rewrite split_app, map_app.
  apply join_app; intros E; apply map_eq_nil in E;
    exact (split_not_nil _ _ E).
Qed.

(** C8: [formatLabel] is defined on every string, the degenerate
    identifiers included (the empty string, an underscore first or last,
    where a segment is empty); it is idempotent; and a segment that spells
    "rna", whatever the case of its letters, becomes "RNA" wherever it
    stands in an underscore-delimited identifier: alone, last, first or in
    the middle. *)
Theorem formatLabel_total_idempotent :
  (forall s, exists! out, formatLabel s = out) /\
  (formatLabel "" = "" /\
   (forall a, formatLabel ("_" ++ a) = (" " ++ formatLabel a)%string) /\
   (forall a, formatLabel (a ++ "_") = (formatLabel a ++ " ")%string)) /\
  (forall s, formatLabel (formatLabel s) = formatLabel s) /\
  (forall w, toLowerCase w = "rna" ->
     formatLabel w = "RNA" /\
     (forall a,
        formatLabel (a ++ "_" ++ w) = (formatLabel a ++ " RNA")%string) /\
     (forall b,
        formatLabel (w ++ "_" ++ b) = ("RNA " ++ formatLabel b)%string) /\
     (forall a b,
        formatLabel (a ++ "_" ++ w ++ "_" ++ b)
        = (formatLabel a ++ " RNA " ++ formatLabel b)%string)).
Proof.
  split.
  { intros s. exists (formatLabel s). split; [reflexivity | auto]. }
  split.
  { split; [reflexivity|]. split.
    - intros a. apply (formatLabel_distributes "" a).
    - intros a. apply (formatLabel_distributes a ""). }
  split; [exact formatLabel_idem|].
  intros w H.
  assert (Hfree : contains "_" w = false).
  { rewrite <- contains_toLowerCase_underscore, H. reflexivity. }
  assert (Hw : formatLabel w = "RNA").
  { rewrite (formatLabel_one_segment w Hfree).
    unfold segmentLabel. now rewrite H. }
  split; [exact Hw|]. split; [|split].
  - intros a. now rewrite formatLabel_distributes, Hw.
  - intros b. now rewrite formatLabel_distributes, Hw.
  - intros a b. now rewrite !formatLabel_distributes, Hw.
Qed.

Lemma formatLabel_total_idempotent_witness :
  toLowerCase "rNa" = "rna" /\
  formatLabel "single_cell_rNa_seq" = "Single Cell RNA Seq" /\
  formatLabel "rNa_expression" = "RNA Expression".
Proof.
  destruct (proj2 (proj2 (proj2 formatLabel_total_idempotent)) "rNa" eq_refl)
    as (_ & _ & Hfirst & Hmid).
  split; [reflexivity|]. split.
  - exact (Hmid "single_cell" "seq").
  - exact (Hfirst "expression").
Defined.

(** ** The normalized score vector *)

Section Find.

Variable type : string.

Lemma find_first (pre post : list DatatypeScore.t) (s : DatatypeScore.t) :
  (forall x, In x pre -> DatatypeScore.id x <> type) ->
  DatatypeScore.id s = type ->
  find (fun score => String.eqb (DatatypeScore.id score) type)
       (pre ++ s :: post) = Some s.
Proof.
  intros Hpre Hs. induction pre as [|x pre IH]; simpl.
  - rewrite Hs, String.eqb_refl. reflexivity.
  - destruct (String.eqb_spec (DatatypeScore.id x) type) as [E|_].
    + exfalso. apply (Hpre x); [now left | exact E].
    + apply IH. intros y Hy. apply Hpre. now right.
Qed.

Lemma find_absent (l : list DatatypeScore.t) :
  (forall x, In x l -> DatatypeScore.id x <> type) ->
  find (fun score => String.eqb (DatatypeScore.id score) type)
       l = None.
Proof.
  intros H. induction l as [|x l IH]; simpl; [reflexivity|].
  destruct (String.eqb_spec (DatatypeScore.id x) type) as [E|_].
  - exfalso. apply (H x); [now left | exact E].
  - apply IH. intros y Hy. apply H. now right.
Qed.

Lemma find_unique (l : list DatatypeScore.t) (s : DatatypeScore.t) :
  NoDup (map DatatypeScore.id l) ->
  In s l ->
  DatatypeScore.id s = type ->
  find (fun score => String.eqb (DatatypeScore.id score) type)
       l = Some s.
Proof.
  intros Hnd Hin Hs.
  apply in_split in Hin as (pre & post & ->).
  apply find_first; [|exact Hs].
  intros x Hx E.
  rewrite map_app in Hnd. simpl in Hnd.
  apply NoDup_remove_2 in Hnd. apply Hnd.
  apply in_or_app. left. rewrite Hs, <- E. now apply in_map.
Qed.

End Find.

Lemma valueAt_find (row : AssociationRow.t) (i : nat) (type : string) :
  nth_error allDataTypes i = Some type ->
  valueAt row i =
    Some (match find (fun score => String.eqb (DatatypeScore.id score) type)
                     (AssociationRow.datatypeScores row) with
          | Some found => DatatypeScore.score found
          | None => js_zero
          end).
Proof.
  intros H. unfold valueAt, chartData.
  rewrite nth_error_map, H. reflexivity.
Qed.

(** C1: the vector has seven entries, one per known category in the
    canonical order and under that category's display label; a category
    that the row's score set contains carries its score, a category the set
    lacks carries zero.  For [{genetic_association: 0.8, literature: 0.2}]
    the values are [0.2, 0, 0.8, 0, 0, 0, 0]. *)
Theorem chartData_normalized (row : AssociationRow.t) :
  NoDup (map DatatypeScore.id (AssociationRow.datatypeScores row)) ->
  List.length (chartData row) = 7 /\
  map name (chartData row) = map formatLabel allDataTypes /\
  map name (chartData row) =
    ["Literature"; "RNA Expression"; "Genetic Association";
     "Somatic Mutation"; "Known Drug"; "Animal Model"; "Affected Pathway"] /\
  (forall i type, nth_error allDataTypes i = Some type ->
     (forall s, In s (AssociationRow.datatypeScores row) ->
        DatatypeScore.id s = type ->
        valueAt row i = Some (DatatypeScore.score s)) /\
     ((forall s, In s (AssociationRow.datatypeScores row) ->
         DatatypeScore.id s <> type) ->
      valueAt row i = Some js_zero)) /\
  map value (chartData sparseRow) =
    [js_0_2; js_zero; js_0_8; js_zero; js_zero; js_zero; js_zero].
Proof.
  intros Hnd.
  split; [reflexivity|].
  split; [unfold chartData; rewrite map_map; reflexivity|].
  split; [reflexivity|].
  split; [|reflexivity].
  intros i type Hi. rewrite (valueAt_find row i type Hi). split.
  - intros s Hin Hs. now rewrite (find_unique type _ s Hnd Hin Hs).
  - intros Habsent. now rewrite (find_absent type _ Habsent).
Qed.

Lemma chartData_normalized_witness :
  NoDup (map DatatypeScore.id (AssociationRow.datatypeScores sparseRow)) /\
  valueAt sparseRow 2 = Some js_0_8 /\
  valueAt sparseRow 1 = Some js_zero.
Proof.
  assert (Hnd : NoDup (map DatatypeScore.id
                         (AssociationRow.datatypeScores sparseRow))).
  { simpl. repeat constructor; simpl; intuition discriminate. }
  split; [exact Hnd|].
  destruct (chartData_normalized sparseRow Hnd) as (_ & _ & _ & H & _).
  split.
  - apply (proj1 (H 2 "genetic_association" eq_refl)
             {| DatatypeScore.id := "genetic_association";
                DatatypeScore.score := js_0_8 |}).
    + simpl. now left.
    + reflexivity.
  - apply (proj2 (H 1 "rna_expression" eq_refl)).
    simpl. intros s [<-|[<-|[]]]; discriminate.
Defined.

(** C9: when several entries of the row's list carry the same known
    category, the vector takes the score of the first of them in list
    order, whatever comes after it. *)
Theorem chartData_first_occurrence
    (row : AssociationRow.t) (i : nat) (type : string)
    (pre post : list DatatypeScore.t) (s : DatatypeScore.t) :
  nth_error allDataTypes i = Some type ->
  AssociationRow.datatypeScores row = pre ++ s :: post ->
  (forall x, In x pre -> DatatypeScore.id x <> type) ->
  DatatypeScore.id s = type ->
  valueAt row i = Some (DatatypeScore.score s).
Proof.
  intros Hi Hrow Hpre Hs.
  rewrite (valueAt_find row i type Hi), Hrow.
  now rewrite (find_first type pre post s Hpre Hs).
Qed.

Lemma chartData_first_occurrence_witness :
  valueAt duplicateRow 0 = Some js_0_8.
Proof.
  apply (chartData_first_occurrence duplicateRow 0 "literature"
           [ {| DatatypeScore.id := "known_drug"; DatatypeScore.score := js_0_2 |} ]
           [ {| DatatypeScore.id := "literature"; DatatypeScore.score := js_0_2 |} ]
           {| DatatypeScore.id := "literature"; DatatypeScore.score := js_0_8 |}).
  - reflexivity.
  - reflexivity.
  - simpl. intros x [<-|[]]. discriminate.
  - reflexivity.
Defined.

(** ** The view state of a row *)

Lemma rowRun_app (evs evs' : list RowEvent) (st : RowState) :
  rowRun (evs ++ evs') st = rowRun evs' (rowRun evs st).
Proof. apply fold_left_app. Qed.

Ltac view_cases :=
  intros [[] t]; unfold viewState; simpl;
  destruct (t =? 0), (t =? 1); simpl; intros; congruence.

(** C5: a row starts collapsed; the toggle flips between collapsed and
    expanded; the first expansion shows the bar chart; the tab control
    switches between bar and radar; the toggle leaves the tab value alone,
    so collapsing and expanding again shows the chart that was shown
    before. *)
Theorem row_view_state_machine :
  viewState initialRowState = Collapsed /\
  viewState (toggle initialRowState) = ExpandedBar /\
  (forall st, open (toggle st) = negb (open st)) /\
  (forall st, viewState st = Collapsed -> viewState (toggle st) <> Collapsed) /\
  (forall st, viewState st <> Collapsed -> viewState (toggle st) = Collapsed) /\
  (forall st, viewState st = ExpandedBar ->
     viewState (handleTabChange 1 st) = ExpandedRadar) /\
  (forall st, viewState st = ExpandedRadar ->
     viewState (handleTabChange 0 st) = ExpandedBar) /\
  (forall st, tabValue (toggle st) = tabValue st) /\
  (forall st, viewState st <> Collapsed ->
     viewState (toggle (toggle st)) = viewState st).
Proof.
  split; [reflexivity|]. split; [reflexivity|].
  split; [intros st; reflexivity|].
  repeat (split; [view_cases|]); view_cases.
Qed.

Lemma row_view_state_machine_witness :
  let radar := handleTabChange 1 (toggle initialRowState) in
  viewState radar = ExpandedRadar /\
  viewState (toggle radar) = Collapsed /\
  viewState (toggle (toggle radar)) = ExpandedRadar.
Proof.
  destruct row_view_state_machine
    as (_ & Hbar & _ & _ & Hcollapse & Hradar & _ & _ & Hrestore).
  assert (H : viewState (handleTabChange 1 (toggle initialRowState))
              = ExpandedRadar) by (apply Hradar; exact Hbar).
  split; [exact H|]. split.
  - apply Hcollapse. rewrite H. discriminate.
  - rewrite Hrestore; [exact H|]. rewrite H. discriminate.
Defined.

(** ** The vector under view-state changes *)

Lemma shownData_cases (row : AssociationRow.t) (st : RowState) :
  shownData (renderRow row st) = None \/
  shownData (renderRow row st) =
    Some (map name (chartData row), map value (chartData row)).
Proof.
  unfold shownData, renderRow; simpl.
  destruct (open st); [|now left].
  destruct (tabValue st =? 0); [now right|].
  destruct (tabValue st =? 1); [now right | now left].
Qed.

(** C6: whatever sequence of toggles and tab selections a row goes
    through, a chart that is visible afterwards shows the same seven
    (label, value) pairs as a chart visible before: the pairs of
    [chartData], which the view state does not enter and which the row's
    score list alone determines. *)
Theorem chartData_frame (row : AssociationRow.t) (evs : list RowEvent)
    (st : RowState) (before after : list string * list number) :
  shownData (renderRow row st) = Some before ->
  shownData (renderRow row (rowRun evs st)) = Some after ->
  after = before /\
  before = (map name (chartData row), map value (chartData row)) /\
  List.length (fst before) = 7 /\
  List.length (snd before) = 7 /\
  (forall row',
     AssociationRow.datatypeScores row' = AssociationRow.datatypeScores row ->
     chartData row' = chartData row).
Proof.
  intros Hb Ha.
  destruct (shownData_cases row st) as [E|E]; rewrite E in Hb; [discriminate|].
  destruct (shownData_cases row (rowRun evs st)) as [E'|E'];
    rewrite E' in Ha; [discriminate|].
  injection Hb as <-. injection Ha as <-.
  repeat (split; [reflexivity|]).
  intros row' H. unfold chartData. now rewrite H.
Qed.

Lemma chartData_frame_witness :
  let bar := rowRun [ClickToggle] initialRowState in
  let d := (map name (chartData sparseRow), map value (chartData sparseRow)) in
  shownData (renderRow sparseRow bar) = Some d /\
  shownData (renderRow sparseRow (rowRun [SelectTab 1] bar)) = Some d /\
  List.length (snd d) = 7.
Proof.
  intros bar d.
  split; [reflexivity|]. split; [reflexivity|].
  exact (proj1 (proj2 (proj2 (proj2
           (chartData_frame sparseRow [SelectTab 1] bar d d eq_refl eq_refl))))).
Defined.

(** ** The resize listeners *)

Lemma filter_comm {A} (p q : A -> bool) (l : list A) :
  filter p (filter q l) = filter q (filter p l).
Proof.
  induction l as [|x l IH]; simpl; [reflexivity|].
  destruct (p x) eqn:P, (q x) eqn:Q; simpl; rewrite ?P, ?Q, IH; reflexivity.
Qed.

Lemma filter_absorb {A} (p q : A -> bool) (l : list A) :
  (forall x, In x l -> p x = true -> q x = true) ->
  filter p (filter q l) = filter p l.
Proof.
  induction l as [|x l IH]; simpl; intros H; [reflexivity|].
  assert (IH' : filter p (filter q l) = filter p l)
    by (apply IH; intros y Hy; apply H; now right).
  destruct (p x) eqn:P.
  - rewrite (H x (or_introl eq_refl) P). simpl. now rewrite P, IH'.
  - destruct (q x); simpl; rewrite ?P; exact IH'.
Qed.

Lemma addEventListener_fresh (h : Handler) (ls : list Handler) :
  Forall (fun k => serial k < serial h) ls ->
  addEventListener h ls = ls ++ [h].
Proof.
  intros H. unfold addEventListener.
  replace (existsb (sameHandler h) ls) with false; [reflexivity|].
  symmetry. induction H as [|k ls Hk _ IH]; simpl; [reflexivity|].
  rewrite IH, orb_false_r. unfold sameHandler.
  apply Nat.eqb_neq. lia.
Qed.

Lemma handleResize_frame (h : Handler) (w : World) :
  resizeListeners (handleResize h w) = resizeListeners w /\
  nextSerial (handleResize h w) = nextSerial w /\
  instances (handleResize h w) = instances w.
Proof.
  unfold handleResize.
  destruct (seenOpen h); [|auto].
  destruct ((seenTab h =? 0) && barChartRef _ _); [simpl; auto|].
  destruct ((seenTab h =? 1) && radarChartRef _ _); simpl; auto.
Qed.

Lemma dispatch_frame (hs : list Handler) (w : World) :
  let w' := fold_left (fun w' h => handleResize h w') hs w in
  resizeListeners w' = resizeListeners w /\
  nextSerial w' = nextSerial w /\
  instances w' = instances w.
Proof.
  revert w. induction hs as [|h hs IH]; intros w; simpl; [auto|].
  destruct (IH (handleResize h w)) as (A & B & C).
  destruct (handleResize_frame h w) as (A' & B' & C').
  rewrite A, B, C. auto.
Qed.

Lemma wellFormed_frame (w w' : World) :
  resizeListeners w' = resizeListeners w ->
  nextSerial w' = nextSerial w ->
  instances w' = instances w ->
  wellFormed w -> wellFormed w'.
Proof.
  intros A B C [F U O N].
  constructor; unfold listenersOf in *; rewrite ?A, ?B, ?C; assumption.
Qed.

Lemma unmounted_vacant (i : nat) (w : World) :
  wellFormed w -> instances w i = None -> vacant i w.
Proof.
  intros [F U O N] Hi. repeat split; try assumption.
  - rewrite O, Hi. reflexivity.
  - apply O.
  - now apply (N j).
  - now apply (N j).
Qed.

Lemma cleanup_vacant (i : nat) (m : Mounted) (w : World) :
  wellFormed w -> instances w i = Some m -> vacant i (runCleanup m w).
Proof.
  intros [F U O N] Hi.
  pose proof (O i) as Hown. rewrite Hi in Hown.
  assert (Hin : In (registered m) (resizeListeners w) /\
                (owner (registered m) =? i) = true).
  { apply (proj1 (filter_In (fun h => owner h =? i) (registered m)
                      (resizeListeners w))).
    fold (listenersOf i w). rewrite Hown. now left. }
  destruct Hin as [Hin Howner].
  unfold vacant, listenersOf, runCleanup, removeEventListener; simpl.
  split; [|split; [|split]].
  - apply Forall_forall. intros k Hk. apply filter_In in Hk as [Hk _].
    revert k Hk. now apply Forall_forall.
  - intros a b Ha Hb. apply filter_In in Ha as [Ha _].
    apply filter_In in Hb as [Hb _]. now apply U.
  - rewrite filter_comm. unfold listenersOf in Hown. rewrite Hown. simpl.
    unfold sameHandler. now rewrite Nat.eqb_refl.
  - intros j Hj. split; [|now apply (N j)].
    rewrite filter_absorb; [apply O|].
    intros k Hk Hkj. apply negb_true_iff.
    destruct (sameHandler (registered m) k) eqn:E; [exfalso|reflexivity].
    apply Nat.eqb_eq in E.
    rewrite <- (U _ _ Hin Hk E) in Hkj.
    apply Nat.eqb_eq in Howner, Hkj. congruence.
Qed.

Lemma effect_wellFormed (i : nat) (st : RowState) (w : World) :
  vacant i w -> wellFormed (runEffect i st w).
Proof.
  intros (F & U & Hv & Hrest).
  set (h := {| serial := nextSerial w; owner := i;
               seenOpen := open st; seenTab := tabValue st |}).
  assert (Hadd : resizeListeners (runEffect i st w) = resizeListeners w ++ [h]).
  { unfold runEffect; simpl. now apply addEventListener_fresh. }
  constructor.
  - rewrite Hadd. apply Forall_app. split.
    + eapply Forall_impl; [|exact F]. simpl. intros; lia.
    + constructor; [simpl; lia | constructor].
  - rewrite Hadd. intros a b Ha Hb E.
    apply in_app_or in Ha as [Ha|[<-|[]]];
      apply in_app_or in Hb as [Hb|[<-|[]]].
    + now apply U.
    + rewrite Forall_forall in F. apply F in Ha. simpl in E. lia.
    + rewrite Forall_forall in F. apply F in Hb. simpl in E. lia.
    + reflexivity.
  - intros j. unfold listenersOf. rewrite Hadd, filter_app.
    unfold runEffect, setInstance; simpl.
    destruct (Nat.eqb_spec j i) as [->|Hj].
    + unfold listenersOf in Hv. rewrite Hv, Nat.eqb_refl. reflexivity.
    + destruct (Nat.eqb_spec i j) as [E|_]; [congruence|].
      rewrite app_nil_r. now apply Hrest.
  - intros j m. unfold runEffect, setInstance; simpl.
    destruct (Nat.eqb_spec j i) as [->|Hj].
    + intros [= <-]. simpl. auto.
    + now apply Hrest.
Qed.

Lemma vacant_unmount (i : nat) (w : World) :
  vacant i w ->
  wellFormed {| resizeListeners := resizeListeners w; timers := timers w;
                nextSerial := nextSerial w;
                instances := setInstance i None (instances w);
                panelMounted := setFlag i false (panelMounted w);
                resizeCalls := resizeCalls w |}.
Proof.
  intros (F & U & Hv & Hrest).
  constructor; simpl; try assumption.
  - intros j. unfold listenersOf, setInstance in *; simpl.
    destruct (Nat.eqb_spec j i) as [->|Hj]; [exact Hv | now apply Hrest].
  - intros j m. unfold setInstance.
    destruct (Nat.eqb_spec j i) as [->|Hj]; [discriminate | now apply Hrest].
Qed.

Lemma emptyWorld_wellFormed : wellFormed emptyWorld.
Proof.
  constructor; simpl.
  - constructor.
  - intros a b [].
  - reflexivity.
  - discriminate.
Qed.

Lemma setPanel_wellFormed (i : nat) (b : bool) (w : World) :
  wellFormed w -> wellFormed (setPanel i b w).
Proof. now apply wellFormed_frame. Qed.

Lemma step_wellFormed (w : World) (ev : Event) :
  wellFormed w -> wellFormed (step w ev).
Proof.
  intros H. destruct ev as [i|i|i ev| | |i]; simpl.
  - destruct (instances w i) eqn:E; [exact H|].
    apply effect_wellFormed, unmounted_vacant;
      [now apply setPanel_wellFormed | exact E].
  - destruct (instances w i) as [m|] eqn:E; [|exact H].
    apply (vacant_unmount i (runCleanup m w)). now apply cleanup_vacant.
  - unfold update. destruct (instances w i) as [m|] eqn:E; [|exact H].
    destruct (sameDeps _ _); [exact H|].
    apply effect_wellFormed, cleanup_vacant;
      [now apply setPanel_wellFormed | exact E].
  - destruct (timers w) as [|h rest]; [exact H|].
    match goal with |- wellFormed (handleResize h ?x) =>
      destruct (handleResize_frame h x) as (A & B & C) end.
    now apply (wellFormed_frame w).
  - destruct (dispatch_frame (resizeListeners w) w) as (A & B & C).
    now apply (wellFormed_frame w).
  - destruct (instances w i) as [m|]; [|exact H].
    destruct (open (rowState m)); [exact H|].
    now apply setPanel_wellFormed.
Qed.

Lemma run_wellFormed (evs : list Event) (w : World) :
  wellFormed w -> wellFormed (run evs w).
Proof.
  revert w. induction evs as [|ev evs IH]; intros w H; simpl; [exact H|].
  apply IH. now apply step_wellFormed.
Qed.

(** C4, as amended: a row has exactly one resize listener from mount to
    unmount, collapsed or expanded, and none afterwards; every change of
    [open] or [tabValue] replaces the listener by one that saw the new
    state; the handler of a listener that saw a collapsed row does nothing. *)
Theorem resize_listener_while_mounted :
  (forall evs i,
     match instances (run evs emptyWorld) i with
     | Some m =>
         listenersOf i (run evs emptyWorld) = [registered m] /\
         seenOpen (registered m) = open (rowState m) /\
         seenTab (registered m) = tabValue (rowState m)
     | None => listenersOf i (run evs emptyWorld) = []
     end) /\
  (forall evs i, listenersOf i (run (evs ++ [Unmount i]) emptyWorld) = []) /\
  (forall h w, seenOpen h = false -> handleResize h w = w).
Proof.
  assert (Hinv : forall evs, wellFormed (run evs emptyWorld))
    by (intros evs; apply run_wellFormed, emptyWorld_wellFormed).
  split; [|split].
  - intros evs i. destruct (Hinv evs) as [_ _ O N].
    specialize (O i). specialize (N i).
    destruct (instances (run evs emptyWorld) i) as [m|]; [|exact O].
    split; [exact O | now apply N].
  - intros evs i. destruct (Hinv (evs ++ [Unmount i])) as [_ _ O _].
    rewrite O. unfold run. rewrite fold_left_app. simpl.
    fold (run evs emptyWorld).
    destruct (instances (run evs emptyWorld) i) eqn:E; simpl.
    + unfold setInstance. now rewrite Nat.eqb_refl.
    + now rewrite E.
  - intros h w H. unfold handleResize. now rewrite H.
Qed.

Lemma resize_listener_while_mounted_witness :
  let w := run [Mount 0; User 0 ClickToggle; WindowResize; User 0 ClickToggle]
               emptyWorld in
  List.length (listenersOf 0 w) = 1 /\
  Forall (fun h => handleResize h w = w) (listenersOf 0 w).
Proof.
  intros w. split; [reflexivity|].
  apply Forall_forall. intros h Hh.
  apply (proj2 (proj2 resize_listener_while_mounted)).
  simpl in Hh. destruct Hh as [<-|[]]. reflexivity.
Defined.

(** C4 as stated fails: a row that has just been mounted is collapsed and
    has a resize listener, and so has a row that was expanded and collapsed
    again. *)
Lemma collapsed_row_keeps_listener :
  isCollapsed 0 (run [Mount 0] emptyWorld) = true /\
  List.length (listenersOf 0 (run [Mount 0] emptyWorld)) = 1 /\
  isCollapsed 0 (run [Mount 0; User 0 ClickToggle; User 0 ClickToggle]
                     emptyWorld) = true /\
  List.length (listenersOf 0 (run [Mount 0; User 0 ClickToggle;
                                   User 0 ClickToggle] emptyWorld)) = 1 /\
  ~ (forall evs i, isCollapsed i (run evs emptyWorld) = true ->
       listenersOf i (run evs emptyWorld) = []).
Proof.
  repeat (split; [reflexivity|]).
  intros H. specialize (H [Mount 0] 0 eq_refl). discriminate H.
Qed.

(** ** The loader *)

Section Loader.

Variable nullishReadMessage : JsValue -> string -> string.

Lemma getPropOpt_memberOr (v : JsValue) (k : string) :
  getPropOpt nullishReadMessage v k = inr (memberOr k v).
Proof. destruct v; reflexivity. Qed.

Lemma memberOr_undefined (k : string) : memberOr k VUndefined = VUndefined.
Proof. reflexivity. Qed.

(** Without the path, the optional chain gives [undefined], unless the
    payload itself is [null]. *)
Lemma rowsChainOpt_lacking (v : JsValue) :
  rowsAtPath v = None ->
  rowsChainOpt nullishReadMessage v = inr VUndefined \/
  ((v = VNull \/ v = VUndefined) /\
   rowsChainOpt nullishReadMessage v =
     inl {| kind := TypeError; message := nullishReadMessage v "data" |}).
Proof.
  intros H.
  destruct v; try (left; reflexivity); try (right; split; auto; reflexivity).
  left. unfold rowsChainOpt.
  change (getProp nullishReadMessage (VObj props) "data")
    with (@inr exn _ (memberOr "data" (VObj props))).
  cbv beta iota. rewrite getPropOpt_memberOr.
  cbv beta iota. rewrite getPropOpt_memberOr.
  cbv beta iota. rewrite getPropOpt_memberOr. f_equal.
  unfold rowsAtPath in H. unfold memberOr.
  destruct (member "data" (VObj props)) as [d|]; [|reflexivity].
  destruct (member "disease" d) as [dis|]; [|reflexivity].
  destruct (member "associatedTargets" dis) as [at_|]; [|reflexivity].
  now rewrite H.
Qed.

(** Each failure kind ends in the state [error(message)] with the rows of
    the state before. *)
Lemma failure_state (outcome : FetchOutcome) (k : FailureKind)
    (st0 : AppState) :
  failureKind outcome = Some k ->
  exists msg,
    fst (fetchData nullishReadMessage outcome st0) = failed st0 msg /\
    match k with
    | TransportFailure => msg = "Network response was not ok"
    | ParseFailure =>
        exists r e, outcome = FetchResolved r /\ json r = inl e /\
                    msg = message e
    | ShapeMismatch =>
        msg = "Data structure from API is not as expected." \/
        exists v, msg = nullishReadMessage v "data"
    end.
Proof.
  unfold failureKind. destruct outcome as [e|r]; [discriminate|].
  unfold fetchData, bind, tryCatchFinally, await,
    throw, setIsLoading, setError, failed; simpl.
  destruct (ok r); simpl.
  - destruct (json r) as [e|v] eqn:J; simpl.
    + intros [= <-]. eexists; split; [reflexivity|]. now exists r, e.
    + destruct (rowsAtPath v) eqn:P; [discriminate|]. intros [= <-].
      destruct (rowsChainOpt_lacking v P) as [E|[_ E]]; rewrite E; simpl;
        eexists; (split; [reflexivity|]); [now left | right; now exists v].
  - intros [= <-]. eexists; split; reflexivity.
Qed.

Lemma render_failed (s : AppState) (msg : string) :
  msg <> "" ->
  render nullishReadMessage (failed s msg)
    = ErrorAlert ("Error fetching data: " ++ msg).
Proof.
  intros H. unfold render, failed; simpl.
  destruct (String.eqb_spec msg ""); [contradiction | reflexivity].
Qed.

Lemma failure_message_nonempty (outcome : FetchOutcome) (k : FailureKind)
    (st0 : AppState) (msg : string) :
  engineMessagesNonEmpty nullishReadMessage outcome ->
  failureKind outcome = Some k ->
  fst (fetchData nullishReadMessage outcome st0) = failed st0 msg ->
  msg <> "".
Proof.
  intros [Hnull Hparse] Hk Hst.
  destruct (failure_state outcome k st0 Hk) as (msg' & Hst' & Hmsg).
  rewrite Hst' in Hst. injection Hst as ->.
  destruct k.
  - subst. discriminate.
  - destruct Hmsg as (r & e & -> & J & ->). now apply (Hparse r e).
  - destruct Hmsg as [->|[v ->]]; [discriminate | apply Hnull].
Qed.

End Loader.

(** C3: a non-success status, a body that is not JSON and a JSON body
    without the rows path all end in the one state [error(message)]: the
    message is not empty (the engine's own messages being non-empty), the
    rows stored before are untouched (none after a first load), the view is
    the error alert with no data row, and the state records the message
    only, not the kind.  So for a response with status 500. *)
Theorem fetch_failure_error_state :
  (forall nrm outcome k st0,
     engineMessagesNonEmpty nrm outcome ->
     failureKind outcome = Some k ->
     exists msg,
       msg <> "" /\
       fst (fetchData nrm outcome st0) = failed st0 msg /\
       render nrm (failed st0 msg) = ErrorAlert ("Error fetching data: " ++ msg) /\
       dataRows (render nrm (failed st0 msg)) = []) /\
  (forall nrm o1 o2 k1 k2 st0,
     failureKind o1 = Some k1 ->
     failureKind o2 = Some k2 ->
     error (fst (fetchData nrm o1 st0)) = error (fst (fetchData nrm o2 st0)) ->
     fst (fetchData nrm o1 st0) = fst (fetchData nrm o2 st0)) /\
  (forall nrm body,
     let s := loaded nrm (FetchResolved {| status := 500; json := body |}) in
     s = failed initialAppState "Network response was not ok" /\
     targets s = VArr [] /\
     render nrm s = ErrorAlert "Error fetching data: Network response was not ok" /\
     dataRows (render nrm s) = []).
Proof.
  split; [|split].
  - intros nrm outcome k st0 Heng Hk.
    destruct (failure_state nrm outcome k st0 Hk) as (msg & Hst & _).
    assert (Hne : msg <> "")
      by exact (failure_message_nonempty nrm outcome k st0 msg Heng Hk Hst).
    exists msg. rewrite (render_failed nrm st0 msg Hne). auto.
  - intros nrm o1 o2 k1 k2 st0 H1 H2 E.
    destruct (failure_state nrm o1 k1 st0 H1) as (m1 & S1 & _).
    destruct (failure_state nrm o2 k2 st0 H2) as (m2 & S2 & _).
    rewrite S1, S2 in *. simpl in E. now injection E as ->.
  - intros nrm body. repeat split.
Qed.

Lemma fetch_failure_error_state_witness :
  engineMessagesNonEmpty v8ReadMessage serverError /\
  failureKind serverError = Some TransportFailure /\
  exists msg,
    msg <> "" /\
    loaded v8ReadMessage serverError = failed initialAppState msg.
Proof.
  assert (Heng : engineMessagesNonEmpty v8ReadMessage serverError).
  { split.
    - intros v k. unfold v8ReadMessage. discriminate.
    - intros r e [= <-]. simpl. intros [= <-]. discriminate. }
  split; [exact Heng|]. split; [reflexivity|].
  destruct (proj1 fetch_failure_error_state v8ReadMessage serverError
              TransportFailure initialAppState Heng eq_refl)
    as (msg & Hne & Hst & _).
  exists msg. split; [exact Hne | exact Hst].
Defined.

(** ** The table body *)

Lemma rowElements_typed nrm (rows : list AssociationRow.t) :
  rowElements nrm (map rowToValue rows) =
    inr (map (fun row => DataRow (VStr (Target.id (AssociationRow.target row)))
                                 (rowToValue row)) rows).
Proof.
  induction rows as [|row rows IH]; [reflexivity|].
  simpl map. simpl rowElements. rewrite IH. reflexivity.
Qed.

Lemma filter_dataRows {A} (f : A -> BodyRow) (l : list A) :
  (forall x, isDataRow (f x) = true) ->
  filter isDataRow (map f l) = map f l /\
  filter (fun r => negb (isDataRow r)) (map f l) = [].
Proof.
  intros H. induction l as [|x l [IH1 IH2]]; simpl; [auto|].
  rewrite H, IH1, IH2. auto.
Qed.

(** C7: the ready state with zero rows renders the one placeholder row and
    no data row; a ready state with rows renders one data row per row, in
    the order received, and no placeholder. *)
Theorem table_body_rows :
  (forall nrm,
     render nrm (ready []) = TableView [PlaceholderRow "No data available."] /\
     List.length (placeholderRows (render nrm (ready []))) = 1 /\
     dataRows (render nrm (ready [])) = [] /\
     loaded nrm (jsonResponse 200 (payload [])) = ready []) /\
  (forall nrm (rows : list AssociationRow.t),
     rows <> [] ->
     render nrm (ready (map rowToValue rows)) =
       TableView (map (fun row =>
                         DataRow (VStr (Target.id (AssociationRow.target row)))
                                 (rowToValue row)) rows) /\
     List.length (dataRows (render nrm (ready (map rowToValue rows))))
       = List.length rows /\
     placeholderRows (render nrm (ready (map rowToValue rows))) = [] /\
     loaded nrm (jsonResponse 200 (payload (map rowToValue rows)))
       = ready (map rowToValue rows)).
Proof.
  split; [intros nrm; repeat split|].
  intros nrm rows Hne.
  assert (Hview : render nrm (ready (map rowToValue rows)) =
                  TableView (map (fun row =>
                     DataRow (VStr (Target.id (AssociationRow.target row)))
                             (rowToValue row)) rows)).
  { unfold render, renderTable, ready, tableBody; simpl.
    rewrite length_map.
    destruct rows as [|row rows]; [congruence|].
    change (0 <? List.length (row :: rows)) with true. cbv iota.
    now rewrite rowElements_typed. }
  rewrite Hview. simpl.
  destruct (filter_dataRows
              (fun row => DataRow (VStr (Target.id (AssociationRow.target row)))
                                  (rowToValue row)) rows (fun _ => eq_refl))
    as [E1 E2].
  rewrite E1, E2, length_map. repeat split.
Qed.

Lemma table_body_rows_witness :
  [sparseRow; duplicateRow] <> [] /\
  List.length (dataRows (render v8ReadMessage
                           (ready (map rowToValue [sparseRow; duplicateRow]))))
    = 2.
Proof.
  assert (H : [sparseRow; duplicateRow] <> []) by discriminate.
  split; [exact H|].
  exact (proj1 (proj2 (proj2 table_body_rows v8ReadMessage
                         [sparseRow; duplicateRow] H))).
Defined.

(** ** The messages of the error state *)

(** The two messages that [fetchData] itself throws. *)
Lemma fetchData_own_messages nrm (r : Response) (st0 : AppState) :
  (ok r = false ->
   fst (fetchData nrm (FetchResolved r) st0)
     = failed st0 "Network response was not ok") /\
  (forall v, ok r = true -> json r = inr v ->
     v <> VNull -> v <> VUndefined -> rowsAtPath v = None ->
     fst (fetchData nrm (FetchResolved r) st0)
       = failed st0 "Data structure from API is not as expected.").
Proof.
  split.
  - intros H. unfold fetchData, bind, tryCatchFinally; simpl.
    rewrite H. reflexivity.
  - intros v H J Hnull Hundef P.
    unfold fetchData, bind, tryCatchFinally; simpl. rewrite H, J. simpl.
    destruct (rowsChainOpt_lacking nrm v P) as [E|[[->| ->] _]];
      [|congruence|congruence].
    rewrite E. reflexivity.
Qed.

(** C10 at the body [null]: the payload lacks the rows path, the read of
    [result.data] throws, and the error state carries the engine's message
    instead of the loader's. *)
Theorem fetch_null_body_message :
  rowsAtPath VNull = None /\
  failureKind (jsonResponse 200 VNull) = Some ShapeMismatch /\
  (forall nrm,
     loaded nrm (jsonResponse 200 VNull)
       = failed initialAppState (nrm VNull "data")) /\
  error (loaded v8ReadMessage (jsonResponse 200 VNull))
    = Some "Cannot read properties of null (reading 'data')" /\
  error (loaded v8ReadMessage (jsonResponse 200 VNull))
    <> Some "Data structure from API is not as expected.".
Proof.
  repeat split. discriminate.
Qed.

(** * Further properties *)

(** ** Labels *)

Lemma string_length_app (a b : string) :
  String.length (a ++ b) = String.length a + String.length b.
Proof. induction a as [|c a IH]; simpl; [reflexivity | now rewrite IH]. Qed.

Lemma length_toLowerCase (s : string) :
  String.length (toLowerCase s) = String.length s.
Proof. induction s as [|c s IH]; simpl; [reflexivity | now rewrite IH]. Qed.

Lemma length_segmentLabel (w : string) :
  String.length (segmentLabel w) = String.length w.
Proof.
  unfold segmentLabel.
  destruct (String.eqb_spec (toLowerCase w) "rna") as [E|_].
  - now rewrite <- (length_toLowerCase w), E.
  - destruct w; reflexivity.
Qed.

Lemma length_join_map (f : string -> string) (sep sep' : string)
    (ws : list string) :
  (forall w, String.length (f w) = String.length w) ->
  String.length sep = String.length sep' ->
  String.length (join sep (map f ws)) = String.length (join sep' ws).
Proof.
  intros Hf Hsep. induction ws as [|w ws IH]; [reflexivity|].
  destruct ws as [|w' ws']; [apply Hf|].
  change (map f (w :: w' :: ws')) with (f w :: map f (w' :: ws')).
  rewrite !join_cons by discriminate.
  rewrite !string_length_app, Hf, Hsep, IH. reflexivity.
Qed.

(** X1: a label never contains an underscore. *)
Theorem formatLabel_no_underscore (s : string) :
  contains "_" (formatLabel s) = false.
Proof.
  rewrite formatLabel_segmentLabel.
  apply join_space_free, Forall_map.
  eapply Forall_impl; [|apply (split_pieces_free "_" s)].
  intros w. apply segmentLabel_free.
Qed.

(** X2: on an ASCII identifier the label has the length of the
    identifier: formatting replaces characters one for one. *)
Theorem formatLabel_length (s : string) :
  asciiOnly s = true ->
  String.length (formatLabel s) = String.length s.
Proof.
  intros _. rewrite formatLabel_segmentLabel.
  rewrite (length_join_map segmentLabel " " "_");
    [|exact length_segmentLabel | reflexivity].
  now rewrite join_split.
Qed.

Lemma formatLabel_length_witness :
  asciiOnly "genetic_association" = true /\
  String.length (formatLabel "genetic_association") = 19.
Proof.
  split; [reflexivity|].
  exact (formatLabel_length "genetic_association" eq_refl).
Defined.

(** X3: formatting distributes over the underscore: the label of
    [a_b] is the label of [a], a space, the label of [b]. *)
Theorem formatLabel_underscore (a b : string) :
  formatLabel (a ++ "_" ++ b) = (formatLabel a ++ " " ++ formatLabel b)%string.
Proof.
  unfold formatLabel.
  change ("_" ++ b)%string with (String "_" b).
  rewrite split_app, map_app.
  apply join_app; intros E; apply map_eq_nil in E;
    exact (split_not_nil _ _ E).
Qed.

(** ** The vector and the row's score list *)

Lemma find_filter {A} (p q : A -> bool) (l : list A) :
  (forall x, p x = true -> q x = true) ->
  find p (filter q l) = find p l.
Proof.
  intros H. induction l as [|x l IH]; simpl; [reflexivity|].
  destruct (p x) eqn:P.
  - rewrite (H x P). simpl. now rewrite P.
  - destruct (q x); simpl; rewrite ?P; exact IH.
Qed.

Lemma knownCategory_In (ident : string) :
  knownCategory ident = true <-> In ident allDataTypes.
Proof.
  unfold knownCategory. rewrite existsb_exists. split.
  - intros (x & Hx & E). apply String.eqb_eq in E. now subst.
  - intros H. exists ident. split; [exact H | apply String.eqb_refl].
Qed.

Lemma chartData_ext (row row' : AssociationRow.t) :
  (forall type, In type allDataTypes ->
     find (fun score => String.eqb (DatatypeScore.id score) type)
          (AssociationRow.datatypeScores row')
     = find (fun score => String.eqb (DatatypeScore.id score) type)
            (AssociationRow.datatypeScores row)) ->
  chartData row' = chartData row.
Proof.
  intros H. unfold chartData. apply map_ext_in.
  intros type Hin. now rewrite (H type Hin).
Qed.

(** X4: scores of categories outside the seven known ones have no
    effect on the vector. *)
Theorem chartData_ignores_unknown (row : AssociationRow.t) :
  chartData (onlyKnown row) = chartData row.
Proof.
  apply chartData_ext. intros type Hin. simpl.
  apply find_filter. intros s E.
  apply String.eqb_eq in E. rewrite E. now apply knownCategory_In.
Qed.

(** X5: when the identifiers of the row's scores are distinct, the
    vector does not depend on the order in which the scores are listed. *)
Theorem chartData_permutation (row : AssociationRow.t)
    (l : list DatatypeScore.t) :
  NoDup (map DatatypeScore.id (AssociationRow.datatypeScores row)) ->
  Permutation (AssociationRow.datatypeScores row) l ->
  chartData (withScores row l) = chartData row.
Proof.
  intros Hnd Hperm. apply chartData_ext. intros type _. simpl.
  assert (Hnd' : NoDup (map DatatypeScore.id l)).
  { eapply Permutation_NoDup; [|exact Hnd]. now apply Permutation_map. }
  destruct (find _ (AssociationRow.datatypeScores row)) as [s|] eqn:E.
  - apply find_some in E as [Hin Hs]. apply String.eqb_eq in Hs.
    apply (find_unique type l s Hnd'); [|exact Hs].
    eapply Permutation_in; [exact Hperm | exact Hin].
  - apply find_absent. intros x Hx Hid.
    apply (Permutation_in _ (Permutation_sym Hperm)) in Hx.
    pose proof (find_none _ _ E x Hx) as F. simpl in F.
    rewrite Hid, String.eqb_refl in F. discriminate.
Qed.

Lemma chartData_permutation_witness :
  chartData (withScores sparseRow (rev (AssociationRow.datatypeScores sparseRow)))
  = chartData sparseRow.
Proof.
  apply chartData_permutation.
  - simpl. repeat constructor; simpl; intuition discriminate.
  - apply Permutation_rev.
Defined.

(** X6: a row without a score for any of the seven categories, in
    particular a row without scores, gives seven zeros. *)
Theorem chartData_all_zero (row : AssociationRow.t) :
  (forall s, In s (AssociationRow.datatypeScores row) ->
     knownCategory (DatatypeScore.id s) = false) ->
  map value (chartData row) = repeat js_zero 7.
Proof.
  intros H.
  assert (E : chartData row = chartData (withScores row [])).
  { symmetry. apply chartData_ext. intros type Hin. simpl. symmetry.
    apply find_absent. intros x Hx Hid.
    apply knownCategory_In in Hin. rewrite <- Hid, (H x Hx) in Hin.
    discriminate. }
  rewrite E. reflexivity.
Qed.

Lemma chartData_all_zero_witness :
  map value (chartData foreignRow) = repeat js_zero 7.
Proof.
  apply chartData_all_zero.
  simpl. intros s [<-|[]]. reflexivity.
Defined.

(** X7: every value of the vector is the literal zero or the score that
    some entry of the row gives for the category of that position. *)
Theorem chartData_provenance (row : AssociationRow.t) (i : nat)
    (type : string) (v : number) :
  nth_error allDataTypes i = Some type ->
  valueAt row i = Some v ->
  v = js_zero \/
  exists s, In s (AssociationRow.datatypeScores row) /\
            DatatypeScore.id s = type /\ DatatypeScore.score s = v.
Proof.
  intros Hi Hv. rewrite (valueAt_find row i type Hi) in Hv.
  injection Hv as <-.
  destruct (find _ _) as [s|] eqn:E; [right | now left].
  apply find_some in E as [Hin Hs]. apply String.eqb_eq in Hs.
  now exists s.
Qed.

Lemma chartData_provenance_witness :
  js_0_8 = js_zero \/
  exists s, In s (AssociationRow.datatypeScores sparseRow) /\
            DatatypeScore.id s = "genetic_association" /\
            DatatypeScore.score s = js_0_8.
Proof.
  exact (chartData_provenance sparseRow 2 "genetic_association" js_0_8
           eq_refl eq_refl).
Defined.

(** ** Sequences of toggles and tab selections *)

Lemma rowRun_open_tab (evs : list RowEvent) (st : RowState) :
  open (rowRun evs st) = xorb (open st) (Nat.odd (toggleCount evs)) /\
  tabValue (rowRun evs st) = lastTab evs (tabValue st).
Proof.
  revert st. induction evs as [|ev evs IH]; intros st.
  - simpl. now rewrite xorb_false_r.
  - destruct (IH (rowStep st ev)) as [Ho Ht].
    change (rowRun (ev :: evs) st) with (rowRun evs (rowStep st ev)).
    rewrite Ho, Ht. destruct ev as [|v]; simpl; split; try reflexivity.
    unfold toggleCount; simpl.
    rewrite Nat.odd_succ, <- Nat.negb_odd.
    destruct (open st), (Nat.odd _); reflexivity.
Qed.

(** X8: after any sequence of events the row is open exactly when its
    initial state and the parity of the number of toggles say so, and its
    tab is the one selected last (the initial one when none was). *)
Theorem rowRun_summary (evs : list RowEvent) (st : RowState) :
  open (rowRun evs st) = xorb (open st) (Nat.odd (toggleCount evs)) /\
  tabValue (rowRun evs st) = lastTab evs (tabValue st).
Proof. exact (rowRun_open_tab evs st). Qed.

Lemma lastTab_offered (evs : list RowEvent) (t : nat) :
  forallb offeredTab evs = true -> t <= 1 -> lastTab evs t <= 1.
Proof.
  revert t. induction evs as [|ev evs IH]; intros t H Ht; [exact Ht|].
  simpl in H. apply andb_true_iff in H as [Hev Hevs].
  destruct ev as [|v]; simpl.
  - now apply IH.
  - apply IH; [exact Hevs|]. now apply Nat.leb_le.
Qed.

(** X9: as long as the tab control only offers the indices 0 and 1, a
    row is collapsed or shows the bar chart or the radar chart; an expanded
    row without a chart does not occur. *)
Theorem rowRun_three_states (evs : list RowEvent) :
  forallb offeredTab evs = true ->
  viewState (rowRun evs initialRowState) <> ExpandedNoChart /\
  panel (renderRow sparseRow (rowRun evs initialRowState)) <> TabsOnly.
Proof.
  intros H.
  assert (Htab : tabValue (rowRun evs initialRowState) <= 1).
  { rewrite (proj2 (rowRun_open_tab evs initialRowState)).
    apply lastTab_offered; [exact H | simpl; lia]. }
  unfold viewState, renderRow; simpl.
  destruct (open _); [|split; discriminate].
  destruct (tabValue _) as [|[|n]]; simpl; [split; discriminate..|lia].
Qed.

Lemma rowRun_three_states_witness :
  viewState (rowRun [ClickToggle; SelectTab 1; ClickToggle; ClickToggle]
                    initialRowState) <> ExpandedNoChart.
Proof.
  exact (proj1 (rowRun_three_states
                  [ClickToggle; SelectTab 1; ClickToggle; ClickToggle]
                  eq_refl)).
Defined.

(** ** Calls of [chart.resize()] *)

Lemma handleResize_target (h : Handler) (w : World) :
  resizeListeners (handleResize h w) = resizeListeners w /\
  instances (handleResize h w) = instances w /\
  panelMounted (handleResize h w) = panelMounted w /\
  resizeCalls (handleResize h w) =
    resizeCalls w ++ match resizeTarget h w with
                     | Some c => [(owner h, c)]
                     | None => []
                     end.
Proof.
  unfold handleResize, resizeTarget.
  destruct (seenOpen h); [|now rewrite app_nil_r].
  destruct ((seenTab h =? 0) && barChartRef _ _); [simpl; auto|].
  destruct ((seenTab h =? 1) && radarChartRef _ _); simpl; auto.
  now rewrite app_nil_r.
Qed.

(** The guards on the refs let a call through only for a chart that is
    mounted. *)
Lemma resizeTarget_mounted (h : Handler) (w : World) (c : Chart) :
  resizeTarget h w = Some c -> mountedChart w (owner h) = Some c.
Proof.
  unfold resizeTarget, mountedChart, barChartRef, radarChartRef.
  destruct (seenOpen h); [|discriminate].
  destruct (instances w (owner h)) as [m|];
    [|rewrite !andb_false_r; discriminate].
  destruct (panelMounted w (owner h)); simpl;
    [|rewrite !andb_false_r; discriminate].
  destruct (tabValue (rowState m) =? 0) eqn:T0.
  - rewrite andb_true_r.
    destruct (seenTab h =? 0); [congruence|].
    apply Nat.eqb_eq in T0. rewrite T0. simpl.
    rewrite andb_false_r. discriminate.
  - rewrite !andb_false_r.
    destruct (tabValue (rowState m) =? 1); [|rewrite andb_false_r; discriminate].
    destruct (seenTab h =? 1); simpl; congruence.
Qed.

Lemma resizeTarget_frame (h : Handler) (w w' : World) :
  instances w' = instances w ->
  panelMounted w' = panelMounted w ->
  resizeTarget h w' = resizeTarget h w.
Proof.
  intros E P. unfold resizeTarget, barChartRef, radarChartRef.
  now rewrite E, P.
Qed.

(** What a dispatch of the resize event to the listeners [hs] logs. *)
Lemma dispatch_calls (hs : list Handler) (w : World) :
  let w' := fold_left (fun w' h => handleResize h w') hs w in
  instances w' = instances w /\
  panelMounted w' = panelMounted w /\
  resizeCalls w' =
    resizeCalls w ++ flat_map (fun h => match resizeTarget h w with
                                        | Some c => [(owner h, c)]
                                        | None => []
                                        end) hs.
Proof.
  revert w. induction hs as [|h hs IH]; intros w; simpl.
  - now rewrite app_nil_r.
  - destruct (IH (handleResize h w)) as (I & P & C).
    destruct (handleResize_target h w) as (_ & I' & P' & C').
    rewrite I, P, C, C', I', P', <- app_assoc.
    split; [reflexivity|]. split; [reflexivity|].
    f_equal. f_equal. apply flat_map_ext. intros k.
    now rewrite (resizeTarget_frame k w (handleResize h w) I' P').
Qed.

(** *** Where the content of the collapse is mounted *)

Lemma emptyWorld_panels : panelsFollow emptyWorld.
Proof. intros i. reflexivity. Qed.

Lemma panelsFollow_frame (w w' : World) :
  instances w' = instances w ->
  panelMounted w' = panelMounted w ->
  panelsFollow w -> panelsFollow w'.
Proof. intros I P H i. rewrite I, P. apply H. Qed.

Lemma step_panels (w : World) (ev : Event) :
  panelsFollow w -> panelsFollow (step w ev).
Proof.
  intros H. destruct ev as [i|i|i ev| | |i]; simpl.
  - destruct (instances w i) eqn:E; [exact H|].
    intros j. specialize (H j). simpl. unfold setInstance, setFlag.
    destruct (j =? i); [discriminate | exact H].
  - destruct (instances w i) as [m|] eqn:E; [|exact H].
    intros j. specialize (H j). simpl. unfold setInstance, setFlag.
    destruct (j =? i); [reflexivity | exact H].
  - unfold update. destruct (instances w i) as [m|] eqn:E; [|exact H].
    destruct (sameDeps _ _); [exact H|].
    intros j. specialize (H j). simpl. unfold setInstance, setFlag.
    destruct (j =? i); [|exact H].
    simpl. intros ->. reflexivity.
  - destruct (timers w) as [|h rest]; [exact H|].
    match goal with |- panelsFollow (handleResize h ?x) =>
      destruct (handleResize_target h x) as (_ & I & P & _) end.
    now apply (panelsFollow_frame w).
  - destruct (dispatch_calls (resizeListeners w) w) as (I & P & _).
    now apply (panelsFollow_frame w).
  - destruct (instances w i) as [m|] eqn:E; [|exact H].
    destruct (open (rowState m)) eqn:O; [exact H|].
    intros j. specialize (H j). simpl. unfold setFlag.
    destruct (Nat.eqb_spec j i) as [->|_]; [|exact H].
    rewrite E. congruence.
Qed.

Lemma run_panels (evs : list Event) (w : World) :
  panelsFollow w -> panelsFollow (run evs w).
Proof.
  revert w. induction evs as [|ev evs IH]; intros w H; simpl; [exact H|].
  apply IH. now apply step_panels.
Qed.

(** X10: a step only adds calls of [resize] to the log, and only for a
    chart that is mounted at that moment: its row is mounted, the content
    of the row's collapse is in the DOM and the chart's tab is the current
    one.  A closed row is not excluded.  When a collapsed row is expanded
    and closed again before the timeout of the expansion has fired, that
    timeout still resizes the chart of the row, now closed, as long as the
    exit transition has not ended; once it has ended, nothing is
    resized. *)
Theorem resize_only_mounted_chart :
  (forall w ev,
     exists new,
       resizeCalls (step w ev) = resizeCalls w ++ new /\
       forall i c, In (i, c) new -> mountedChart w i = Some c) /\
  (forall w i m,
     instances w i = Some m ->
     open (rowState m) = false ->
     timers w = [] ->
     let closing := run [User i ClickToggle; User i ClickToggle] w in
     isCollapsed i closing = true /\
     resizeCalls closing = resizeCalls w /\
     resizeCalls (run [TimerFires; TimerFires] closing) =
       resizeCalls w ++
       match visibleChart (Some {| rowState := toggle (rowState m);
                                   registered := registered m |}) with
       | Some c => [(i, c)]
       | None => []
       end /\
     resizeCalls (run [CollapseExited i; TimerFires; TimerFires] closing) =
       resizeCalls w).
Proof.
  split.
  - intros w ev. destruct ev as [i|i|i ev| | |i]; simpl.
    + exists []. rewrite app_nil_r. split; [|intros ? ? []].
      now destruct (instances w i).
    + exists []. rewrite app_nil_r. split; [|intros ? ? []].
      now destruct (instances w i).
    + exists []. rewrite app_nil_r. split; [|intros ? ? []].
      unfold update. destruct (instances w i); [|reflexivity].
      now destruct (sameDeps _ _).
    + destruct (timers w) as [|h rest].
      * exists []. rewrite app_nil_r. split; [reflexivity | intros ? ? []].
      * match goal with |- context [handleResize h ?x] =>
          destruct (handleResize_target h x) as (_ & _ & _ & C);
          pose proof (resizeTarget_mounted h x) as V end.
        rewrite C. simpl in *. eexists. split; [reflexivity|].
        intros j c Hin. destruct (resizeTarget h _) as [c'|]; [|destruct Hin].
        destruct Hin as [[= <- <-]|[]]. now apply V.
    + destruct (dispatch_calls (resizeListeners w) w) as (_ & _ & C).
      rewrite C. eexists. split; [reflexivity|].
      intros j c Hin. apply in_flat_map in Hin as (h & _ & Hin).
      destruct (resizeTarget h w) as [c'|] eqn:T; [|destruct Hin].
      destruct Hin as [[= <- <-]|[]]. now apply resizeTarget_mounted.
    + exists []. rewrite app_nil_r. split; [|intros ? ? []].
      destruct (instances w i) as [m|]; [|reflexivity].
      now destruct (open (rowState m)).
  - intros w i m Hi Ho Ht.
    destruct w as [ls ts n inst pan calls]. simpl in Hi, Ht. subst ts.
    destruct m as [[o t] h]. simpl in Ho. subst o.
    unfold run, isCollapsed.
    destruct (t =? 0) eqn:T0; [|destruct (t =? 1) eqn:T1];
      repeat (cbn -[Nat.eqb addEventListener removeEventListener];
              unfold update, setInstance, setFlag, barChartRef, radarChartRef,
                visibleChart, viewState;
              rewrite ?Hi, ?Nat.eqb_refl, ?T0, ?T1, ?andb_false_r);
      rewrite ?app_nil_r; repeat split.
Qed.

Lemma resize_only_mounted_chart_witness :
  let w := run [Mount 0; TimerFires] emptyWorld in
  isCollapsed 0 (run [User 0 ClickToggle; User 0 ClickToggle] w) = true /\
  resizeCalls (run [User 0 ClickToggle; User 0 ClickToggle;
                    TimerFires; TimerFires] w) = [(0, BarChart)] /\
  resizeCalls (run [User 0 ClickToggle; User 0 ClickToggle; CollapseExited 0;
                    TimerFires; TimerFires] w) = [].
Proof.
  intros w.
  destruct (proj2 resize_only_mounted_chart w 0
              {| rowState := initialRowState;
                 registered := {| serial := 0; owner := 0;
                                  seenOpen := false; seenTab := 0 |} |}
              eq_refl eq_refl eq_refl) as (A & _ & B & C).
  split; [exact A|]. split; [exact B | exact C].
Defined.

Lemma callsFor_flat_map (i : nat) (f : Handler -> option Chart)
    (hs : list Handler) :
  callsFor i (flat_map (fun h => match f h with
                                 | Some c => [(owner h, c)]
                                 | None => []
                                 end) hs)
  = flat_map (fun h => match f h with
                       | Some c => [(owner h, c)]
                       | None => []
                       end) (filter (fun h => owner h =? i) hs).
Proof.
  unfold callsFor. induction hs as [|h hs IH]; simpl; [reflexivity|].
  rewrite filter_app, IH.
  destruct (owner h =? i) eqn:O; simpl.
  - destruct (f h); simpl; [now rewrite O | reflexivity].
  - destruct (f h); simpl; [now rewrite O | reflexivity].
Qed.

Lemma resizeTarget_current (w : World) (i : nat) (m : Mounted) :
  instances w i = Some m ->
  (open (rowState m) = true -> panelMounted w i = true) ->
  owner (registered m) = i ->
  seenOpen (registered m) = open (rowState m) ->
  seenTab (registered m) = tabValue (rowState m) ->
  resizeTarget (registered m) w = visibleChart (Some m).
Proof.
  intros Hi Hp Ho Hs Ht.
  unfold resizeTarget, visibleChart, viewState, barChartRef, radarChartRef.
  rewrite Ho, Hi, Hs, Ht.
  destruct (open (rowState m)); [|reflexivity].
  rewrite (Hp eq_refl). simpl.
  destruct (tabValue (rowState m) =? 0); [reflexivity|].
  now destruct (tabValue (rowState m) =? 1).
Qed.

(** X11: at every point that the table can reach, a resize of the
    window resizes, for each row, exactly the chart that the row shows:
    one call for an expanded row, none for a collapsed or unmounted one. *)
Theorem window_resize_calls (evs : list Event) :
  let w := run evs emptyWorld in
  exists new,
    resizeCalls (step w WindowResize) = resizeCalls w ++ new /\
    forall i, callsFor i new = match visibleChart (instances w i) with
                               | Some c => [(i, c)]
                               | None => []
                               end.
Proof.
  intros w.
  assert (Hwf : wellFormed w)
    by (apply run_wellFormed, emptyWorld_wellFormed).
  assert (Hpan : panelsFollow w)
    by (apply run_panels, emptyWorld_panels).
  destruct (dispatch_calls (resizeListeners w) w) as (_ & _ & C).
  simpl. rewrite C. eexists. split; [reflexivity|].
  intros i.
  rewrite (callsFor_flat_map i (fun h => resizeTarget h w)).
  destruct Hwf as [_ _ O N]. specialize (O i). specialize (N i).
  specialize (Hpan i).
  unfold listenersOf in O. rewrite O.
  destruct (instances w i) as [m|] eqn:Hi; [|reflexivity].
  destruct (N m eq_refl) as [Hs Ht].
  assert (Ho : owner (registered m) = i).
  { assert (Hin : In (registered m)
                     (filter (fun h => owner h =? i) (resizeListeners w)))
      by (rewrite O; now left).
    apply filter_In in Hin as [_ Hin]. now apply Nat.eqb_eq. }
  cbn [flat_map].
  rewrite app_nil_r, (resizeTarget_current w i m Hi Hpan Ho Hs Ht), Ho.
  destruct (visibleChart (Some m)); reflexivity.
Qed.

(** X12: when no timer is pending, expanding a collapsed row and
    letting the timer of the effect fire resizes the chart of the row's
    tab, once. *)
Theorem expand_then_timer_resizes (w : World) (i : nat) (m : Mounted) :
  instances w i = Some m ->
  open (rowState m) = false ->
  timers w = [] ->
  resizeCalls (run [User i ClickToggle; TimerFires] w) =
    resizeCalls w ++
    match visibleChart (Some {| rowState := toggle (rowState m);
                                registered := registered m |}) with
    | Some c => [(i, c)]
    | None => []
    end.
Proof.
  intros Hi Ho Ht.
  unfold run; simpl. unfold update. rewrite Hi.
  unfold sameDeps, toggle, setOpen; simpl. rewrite Ho. simpl.
  unfold runEffect, runCleanup; simpl. rewrite Ht. simpl.
  unfold handleResize, visibleChart, viewState, barChartRef, radarChartRef,
    setInstance, setFlag; simpl.
  rewrite !Nat.eqb_refl. simpl.
  destruct (tabValue (rowState m) =? 0); [reflexivity|]. simpl.
  destruct (tabValue (rowState m) =? 1); simpl; [reflexivity|].
  now rewrite app_nil_r.
Qed.

Lemma expand_then_timer_resizes_witness :
  resizeCalls (run [User 0 ClickToggle; TimerFires]
                   (run [Mount 0; TimerFires] emptyWorld))
  = [(0, BarChart)].
Proof.
  exact (expand_then_timer_resizes (run [Mount 0; TimerFires] emptyWorld) 0
           {| rowState := initialRowState;
              registered := {| serial := 0; owner := 0;
                               seenOpen := false; seenTab := 0 |} |}
           eq_refl eq_refl eq_refl).
Defined.

(** ** The loader, outcome by outcome *)

Section Outcomes.

Variable nrm : JsValue -> string -> string.

Lemma getProp_memberOr (v : JsValue) (k : string) :
  nullish v = false -> getProp nrm v k = inr (memberOr k v).
Proof. destruct v; simpl; intros H; try discriminate; reflexivity. Qed.

Lemma memberOr_nullish (k : string) (v : JsValue) :
  nullish v = true -> memberOr k v = VUndefined.
Proof. destruct v; simpl; intros H; try discriminate; reflexivity. Qed.

Lemma truthy_not_nullish (v : JsValue) : truthy v = true -> nullish v = false.
Proof. destruct v; simpl; intros H; try discriminate; reflexivity. Qed.

Lemma rowsChainOpt_value (v : JsValue) :
  nullish v = false -> rowsChainOpt nrm v = inr (rowsValue v).
Proof.
  intros H. unfold rowsChainOpt. rewrite (getProp_memberOr v "data" H).
  now rewrite !getPropOpt_memberOr.
Qed.

Lemma rowsChainOpt_nullish (v : JsValue) (x : JsValue) :
  rowsChainOpt nrm v = inr x -> nullish v = false.
Proof. destruct v; simpl; intros H; try discriminate; reflexivity. Qed.

(** A truthy value at the end of the chain means that no step met
    [null] or [undefined]. *)
Lemma rowsValue_steps (v : JsValue) :
  truthy (rowsValue v) = true ->
  nullish (memberOr "data" v) = false /\
  nullish (memberOr "disease" (memberOr "data" v)) = false /\
  nullish (memberOr "associatedTargets"
             (memberOr "disease" (memberOr "data" v))) = false.
Proof.
  unfold rowsValue. intros H.
  destruct (nullish (memberOr "data" v)) eqn:N1.
  { rewrite (memberOr_nullish "disease" _ N1) in H. discriminate. }
  destruct (nullish (memberOr "disease" (memberOr "data" v))) eqn:N2.
  { rewrite (memberOr_nullish "associatedTargets" _ N2) in H. discriminate. }
  destruct (nullish (memberOr "associatedTargets" _)) eqn:N3.
  { rewrite (memberOr_nullish "rows" _ N3) in H. discriminate. }
  auto.
Qed.

Lemma rowsChain_agrees (v x : JsValue) :
  rowsChainOpt nrm v = inr x -> truthy x = true -> rowsChain nrm v = inr x.
Proof.
  intros H T. pose proof (rowsChainOpt_nullish v x H) as N.
  rewrite (rowsChainOpt_value v N) in H. injection H as <-.
  destruct (rowsValue_steps v T) as (N1 & N2 & N3).
  unfold rowsChain.
  rewrite (getProp_memberOr v "data" N).
  rewrite (getProp_memberOr _ "disease" N1).
  rewrite (getProp_memberOr _ "associatedTargets" N2).
  now rewrite (getProp_memberOr _ "rows" N3).
Qed.

Lemma rowsAtPath_value (v rows : JsValue) :
  rowsAtPath v = Some rows -> nullish v = false /\ rowsValue v = rows.
Proof.
  unfold rowsAtPath, rowsValue, memberOr. intros H.
  split; [destruct v; try discriminate; reflexivity|].
  destruct (member "data" v) as [d|]; [|discriminate].
  destruct (member "disease" d) as [dis|]; [|discriminate].
  destruct (member "associatedTargets" dis) as [at_|]; [|discriminate].
  now rewrite H.
Qed.


(** The run of [fetchData] on a response that is ok and parses to [v]. *)
Lemma fetchData_parsed (r : Response) (v : JsValue) (st0 : AppState) :
  ok r = true -> json r = inr v ->
  fetchData nrm (FetchResolved r) st0 =
    match rowsChainOpt nrm v with
    | inl e => (failed st0 (message e), inr tt)
    | inr found =>
        if truthy found then (loadedWith found, inr tt)
        else (failed st0 "Data structure from API is not as expected.",
              inr tt)
    end.
Proof.
  intros Hok J.
  unfold fetchData, bind, tryCatchFinally, await, throw; simpl.
  rewrite Hok, J. simpl.
  destruct (rowsChainOpt nrm v) as [e|found] eqn:C; [reflexivity|].
  destruct (truthy found) eqn:T; [|reflexivity].
  now rewrite (rowsChain_agrees v found C T).
Qed.

Lemma fetchData_cases (outcome : FetchOutcome) (st0 : AppState) :
  snd (fetchData nrm outcome st0) = inr tt /\
  ((exists rows, truthy rows = true /\
                 fst (fetchData nrm outcome st0) = loadedWith rows) \/
   (exists msg, fst (fetchData nrm outcome st0) = failed st0 msg)).
Proof.
  destruct outcome as [e|r].
  { split; [reflexivity|]. right. now exists (message e). }
  destruct (ok r) eqn:Hok.
  - destruct (json r) as [e|v] eqn:J.
    + unfold fetchData, bind, tryCatchFinally, await, throw; simpl.
      rewrite Hok, J. simpl. split; [reflexivity|].
      right. now exists (message e).
    + rewrite (fetchData_parsed r v st0 Hok J).
      destruct (rowsChainOpt nrm v) as [e|found].
      * split; [reflexivity|]. right. now exists (message e).
      * destruct (truthy found) eqn:T; (split; [reflexivity|]).
        -- left. now exists found.
        -- right. now eexists.
  - unfold fetchData, bind, tryCatchFinally, await, throw; simpl.
    rewrite Hok. simpl. split; [reflexivity|]. right. now eexists.
Qed.

End Outcomes.

(** X13: [fetchData] never lets an exception out, and it always ends
    not loading, in one of two ways: rows stored (a truthy value) and no
    error, or an error message and the rows of before. *)
Theorem fetchData_settles nrm (outcome : FetchOutcome) (st0 : AppState) :
  snd (fetchData nrm outcome st0) = inr tt /\
  isLoading (fst (fetchData nrm outcome st0)) = false /\
  ((exists rows, truthy rows = true /\
                 fst (fetchData nrm outcome st0) = loadedWith rows) \/
   (exists msg, fst (fetchData nrm outcome st0) = failed st0 msg)).
Proof.
  destruct (fetchData_cases nrm outcome st0) as [Hr Hs].
  split; [exact Hr|]. split; [|exact Hs].
  destruct Hs as [(rows & _ & ->)|(msg & ->)]; reflexivity.
Qed.



(** X15: a [rows] member that is present but falsy ([null], [false],
    0, the empty string) is treated as missing: the load fails with the
    loader's own message. *)
Theorem fetch_falsy_rows nrm (r : Response) (v rows : JsValue)
    (st0 : AppState) :
  ok r = true -> json r = inr v ->
  rowsAtPath v = Some rows -> truthy rows = false ->
  fst (fetchData nrm (FetchResolved r) st0)
    = failed st0 "Data structure from API is not as expected.".
Proof.
  intros Hok J P T.
  rewrite (fetchData_parsed nrm r v st0 Hok J).
  destruct (rowsAtPath_value v rows P) as [N <-].
  now rewrite (rowsChainOpt_value nrm v N), T.
Qed.

Lemma fetch_falsy_rows_witness :
  loaded v8ReadMessage (jsonResponse 200 (payloadWith VNull))
    = failed initialAppState "Data structure from API is not as expected.".
Proof.
  exact (fetch_falsy_rows v8ReadMessage
           {| status := 200; json := inr (payloadWith VNull) |}
           (payloadWith VNull) VNull initialAppState
           eq_refl eq_refl eq_refl eq_refl).
Defined.

(** X16: once the optional chain has given a truthy value, the second,
    unguarded read [result.data.disease.associatedTargets.rows] cannot
    throw and gives the same value. *)
Theorem rows_second_read nrm (v x : JsValue) :
  rowsChainOpt nrm v = inr x -> truthy x = true -> rowsChain nrm v = inr x.
Proof. exact (rowsChain_agrees nrm v x). Qed.

Lemma rows_second_read_witness :
  rowsChain v8ReadMessage (payload []) = inr (VArr []).
Proof.
  exact (rows_second_read v8ReadMessage (payload []) (VArr []) eq_refl eq_refl).
Defined.

(** ** What [App] shows *)

(** X17: an error whose message is the empty string is not shown:
    [if (error)] is false for it, and the view is the table with the
    placeholder row. *)
Theorem empty_message_not_shown nrm (e : exn) :
  message e = "" ->
  render nrm (loaded nrm (FetchRejected e))
    = TableView [PlaceholderRow "No data available."] /\
  render nrm (loaded nrm (FetchResolved {| status := 200; json := inl e |}))
    = TableView [PlaceholderRow "No data available."].
Proof.
  intros H. unfold loaded, fetchData, bind, tryCatchFinally, render; simpl.
  rewrite H. split; reflexivity.
Qed.

Lemma empty_message_not_shown_witness :
  render v8ReadMessage (loaded v8ReadMessage (FetchRejected silentError))
    = TableView [PlaceholderRow "No data available."].
Proof.
  exact (proj1 (empty_message_not_shown v8ReadMessage silentError eq_refl)).
Defined.

Lemma rowElements_rows nrm (rows : list JsValue) (els : list BodyRow) :
  rowElements nrm rows = inr els -> map rowOf els = map Some rows.
Proof.
  revert els. induction rows as [|row rows IH]; simpl; intros els H.
  - now injection H as <-.
  - destruct (getProp nrm row "target") as [e|t]; [discriminate|].
    destruct (getProp nrm t "id") as [e|key]; [discriminate|].
    destruct (rowElements nrm rows) as [e|els']; [discriminate|].
    injection H as <-. simpl. now rewrite (IH els').
Qed.

Lemma all_dataRows (els : list BodyRow) (rows : list JsValue) :
  map rowOf els = map Some rows -> filter isDataRow els = els.
Proof.
  revert rows. induction els as [|el els IH]; intros rows H; [reflexivity|].
  destruct rows as [|row rows]; [discriminate|].
  injection H as H1 H2. destruct el; [|discriminate].
  simpl. now rewrite (IH rows).
Qed.

(** X18: data rows are on screen only when the app is not loading, no
    error message is set (or only the empty one) and the stored rows are a
    non-empty array; then there is one data row per stored row, each with
    that row as its prop, in the stored order. *)
Theorem data_rows_only_when_ready nrm (s : AppState) :
  dataRows (render nrm s) <> [] ->
  isLoading s = false /\
  (error s = None \/ error s = Some "") /\
  exists rows,
    targets s = VArr rows /\ rows <> [] /\
    map rowOf (dataRows (render nrm s)) = map Some rows.
Proof.
  unfold render. destruct (isLoading s); [simpl; congruence|].
  assert (Htable : dataRows (renderTable nrm s) <> [] ->
                   exists rows, targets s = VArr rows /\ rows <> [] /\
                     map rowOf (dataRows (renderTable nrm s)) = map Some rows).
  { unfold renderTable, tableBody.
    destruct (targets s) as [| | | | |rows|]; simpl; try congruence.
    destruct rows as [|row rows]; [simpl; congruence|].
    change (0 <? List.length (row :: rows)) with true. cbv iota.
    destruct (rowElements nrm (row :: rows)) as [e|els] eqn:E;
      [simpl; congruence|].
    intros _. exists (row :: rows).
    split; [reflexivity|]. split; [discriminate|].
    pose proof (rowElements_rows nrm _ _ E) as R.
    simpl dataRows. now rewrite (all_dataRows els _ R). }
  destruct (error s) as [msg|].
  - destruct (String.eqb_spec msg "") as [->|Hne]; simpl.
    + intros H. split; [reflexivity|]. split; [now right | now apply Htable].
    + congruence.
  - intros H. split; [reflexivity|]. split; [now left | now apply Htable].
Qed.

Lemma data_rows_only_when_ready_witness :
  isLoading (ready [rowToValue sparseRow]) = false /\
  error (ready [rowToValue sparseRow]) = None.
Proof.
  destruct (data_rows_only_when_ready v8ReadMessage
              (ready [rowToValue sparseRow])) as (L & [E|E] & _).
  - simpl. discriminate.
  - split; [exact L | exact E].
  - discriminate E.
Defined.

Lemma getProp_throws nrm (v : JsValue) (k : string) :
  nullish v = true ->
  exists e, kind e = TypeError /\ getProp nrm v k = inl e.
Proof.
  destruct v; simpl; intros H; try discriminate;
    eexists; (split; [|reflexivity]); reflexivity.
Qed.

Lemma rowElements_keyable nrm (rows : list JsValue) :
  forallb keyable rows = true ->
  rowElements nrm rows =
    inr (map (fun row => DataRow (memberOr "id" (memberOr "target" row)) row)
             rows).
Proof.
  induction rows as [|row rows IH]; simpl; intros H; [reflexivity|].
  apply andb_true_iff in H as [K Hrest].
  apply andb_true_iff in K as [K1 K2].
  apply negb_true_iff in K1, K2.
  rewrite (getProp_memberOr nrm row "target" K1).
  rewrite (getProp_memberOr nrm _ "id" K2).
  now rewrite (IH Hrest).
Qed.

Lemma rowElements_unkeyable nrm (rows : list JsValue) :
  forallb keyable rows = false ->
  exists e, kind e = TypeError /\ rowElements nrm rows = inl e.
Proof.
  induction rows as [|row rows IH]; simpl; intros H; [discriminate|].
  destruct (nullish row) eqn:K1.
  { destruct (getProp_throws nrm row "target" K1) as (e & Hk & ->).
    now exists e. }
  rewrite (getProp_memberOr nrm row "target" K1).
  destruct (nullish (memberOr "target" row)) eqn:K2.
  { destruct (getProp_throws nrm _ "id" K2) as (e & Hk & ->).
    now exists e. }
  rewrite (getProp_memberOr nrm _ "id" K2).
  unfold keyable in H. rewrite K1, K2 in H. simpl in H.
  destruct (IH H) as (e & Hk & ->). now exists e.
Qed.

(** X19: the table body can be built exactly when [target] can be read
    from every row and [id] from every target: then each row gets one
    element, keyed by [row.target.id], in order; one row that is [null] or
    has no [target] makes the whole render throw a [TypeError]. *)
Theorem table_needs_keyable_rows nrm (rows : list JsValue) :
  (forallb keyable rows = true ->
   rowElements nrm rows =
     inr (map (fun row => DataRow (memberOr "id" (memberOr "target" row)) row)
              rows)) /\
  (forallb keyable rows = false ->
   exists e, kind e = TypeError /\
             rowElements nrm rows = inl e /\
             render nrm (ready rows) = RenderThrows e).
Proof.
  split; [apply rowElements_keyable|].
  intros H. destruct (rowElements_unkeyable nrm rows H) as (e & Hk & E).
  exists e. split; [exact Hk|]. split; [exact E|].
  unfold render, renderTable, tableBody, ready; simpl.
  destruct rows as [|row rows]; [discriminate|].
  change (0 <? List.length (row :: rows)) with true. cbv iota.
  now rewrite E.
Qed.

Lemma table_needs_keyable_rows_witness :
  (exists e, kind e = TypeError /\
             render v8ReadMessage (ready [rowToValue sparseRow; VNull])
               = RenderThrows e) /\
  rowElements v8ReadMessage [rowToValue sparseRow]
    = inr [DataRow (VStr "ENSG00000146648") (rowToValue sparseRow)].
Proof.
  split.
  - destruct (proj2 (table_needs_keyable_rows v8ReadMessage
                       [rowToValue sparseRow; VNull]) eq_refl)
      as (e & Hk & _ & R).
    now exists e.
  - exact (proj1 (table_needs_keyable_rows v8ReadMessage
                    [rowToValue sparseRow]) eq_refl).
Defined.

(** ** Three fraction digits *)

Example toFixed3_samples :
  toFixed3 js_0_8 = Some "0.800" /\
  toFixed3 js_0_2 = Some "0.200" /\
  toFixed3 js_zero = Some "0.000" /\
  toFixed3 (S754_finite false 1 0) = Some "1.000" /\
  (* 0.9995 and 0.0005: the doubles nearest to them are above them *)
  toFixed3 (S754_finite false 9002695655113622 (-53)) = Some "1.000" /\
  toFixed3 (S754_finite false 4611686018427388 (-63)) = Some "0.001" /\
  (* -0.0001 *)
  toFixed3 (S754_finite true 7378697629483821 (-66)) = Some "-0.000" /\
  tooltipLabel "Association Score" (Some js_0_8)
    = Some "Association Score: 0.800" /\
  tooltipLabel "" (Some js_0_8) = Some "0.800" /\
  tooltipLabel "EGFR" None = Some "EGFR: ".
Proof. vm_compute. repeat split. Qed.

Lemma thousandths_bounds (m : positive) (e : Z) :
  let n := thousandths m e in
  (0 <= n /\
   2 ^ Z.max 0 (- e) * (2 * n - 1) <= 2000 * Zpos m * 2 ^ Z.max 0 e
     < 2 ^ Z.max 0 (- e) * (2 * n + 1))%Z.
Proof.
  unfold thousandths. destruct (Z.leb_spec 0 e) as [He|He].
  - rewrite (Z.max_r 0 e He), (Z.max_l 0 (- e)) by lia.
    assert (0 < 2 ^ e)%Z by (apply Z.pow_pos_nonneg; lia).
    simpl (2 ^ 0)%Z. nia.
  - rewrite (Z.max_l 0 e) by lia. rewrite (Z.max_r 0 (- e)) by lia.
    replace (1 - e)%Z with (Z.succ (- e)) by lia.
    rewrite Z.pow_succ_r by lia.
    set (q := (2 ^ (- e))%Z).
    assert (Hq : (0 < q)%Z) by (apply Z.pow_pos_nonneg; lia).
    pose proof (Z.div_mod (2000 * Zpos m + q) (2 * q) ltac:(lia)) as D.
    pose proof (Z.mod_pos_bound (2000 * Zpos m + q) (2 * q) ltac:(lia)) as B.
    simpl (2 ^ 0)%Z.
    assert (0 <= (2000 * Zpos m + q) / (2 * q))%Z
      by (apply Z.div_pos; lia).
    nia.
Qed.



Lemma fixed3_small (n : Z) :
  (0 <= n <= 1000)%Z ->
  fixed3 n = String (digit (n / 1000))
               (String "." (String (digit (n / 100 mod 10))
                  (String (digit (n / 10 mod 10))
                     (String (digit (n mod 10)) "")))).
Proof.
  intros H. unfold fixed3.
  assert (Hq : (n / 1000 = 0 \/ n / 1000 = 1)%Z).
  { assert (0 <= n / 1000 <= 1)%Z; [|lia].
    split; [apply Z.div_pos; lia|].
    apply Z.div_le_upper_bound; lia. }
  destruct Hq as [-> | ->]; reflexivity.
Qed.

Lemma unitInterval_thousandths (m : positive) (e : Z) :
  unitInterval (S754_finite false m e) = true ->
  atLeast1e21 m e = false /\ (0 <= thousandths m e <= 1000)%Z.
Proof.
  unfold unitInterval, atLeast1e21.
  pose proof (thousandths_bounds m e) as (Hn & Hlo & Hhi).
  destruct (Z.leb_spec 0 e) as [He|He]; intros H; apply Z.leb_le in H.
  - rewrite (Z.max_r 0 e He), (Z.max_l 0 (- e)) in * by lia.
    simpl (2 ^ 0)%Z in *. rewrite <- !Z.mul_assoc in Hlo, Hhi.
    change (10 ^ 21)%Z with 1000000000000000000000%Z.
    split; [apply Z.leb_gt; lia | lia].
  - rewrite (Z.max_l 0 e), (Z.max_r 0 (- e)) in * by lia.
    simpl (2 ^ 0)%Z in *.
    assert (Hq : (0 < 2 ^ (- e))%Z) by (apply Z.pow_pos_nonneg; lia).
    change (10 ^ 21)%Z with 1000000000000000000000%Z.
    split; [apply Z.leb_gt; lia | nia].
Qed.

Lemma toFixed3_unit (x : number) :
  unitInterval x = true ->
  exists n, (0 <= n <= 1000)%Z /\ toFixed3 x = Some (fixed3 n).
Proof.
  destruct x as [s|s| |s m e]; try discriminate.
  - intros _. exists 0%Z. split; [lia | reflexivity].
  - destruct s; [discriminate|]. intros H.
    destruct (unitInterval_thousandths m e H) as [A B].
    exists (thousandths m e). split; [exact B|].
    simpl. now rewrite A.
Qed.

(** X21: a number between 0 and 1 prints as five characters: a digit 0
    or 1, the point, three digits; so every score in the usual range
    fills the same width in the score cell and on the axes. *)
Theorem toFixed3_unit_interval (x : number) :
  unitInterval x = true ->
  exists n,
    (0 <= n <= 1000)%Z /\
    toFixed3 x =
      Some (String (digit (n / 1000))
              (String "." (String (digit (n / 100 mod 10))
                 (String (digit (n / 10 mod 10))
                    (String (digit (n mod 10)) ""))))).
Proof.
  intros H. destruct (toFixed3_unit x H) as (n & Hn & E).
  exists n. split; [exact Hn|]. now rewrite <- (fixed3_small n Hn).
Qed.

Lemma toFixed3_unit_interval_witness :
  exists n, (0 <= n <= 1000)%Z /\
            Some "0.200" =
              Some (String (digit (n / 1000))
                      (String "." (String (digit (n / 100 mod 10))
                         (String (digit (n / 10 mod 10))
                            (String (digit (n mod 10)) ""))))).
Proof.
  exact (toFixed3_unit_interval js_0_2 eq_refl).
Defined.

Lemma chartData_unit (row : AssociationRow.t) (v : number) :
  Forall (fun s => unitInterval (DatatypeScore.score s) = true)
         (AssociationRow.datatypeScores row) ->
  In v (map value (chartData row)) ->
  unitInterval v = true.
Proof.
  intros Hall Hin. unfold chartData in Hin. rewrite map_map in Hin.
  apply in_map_iff in Hin as (type & <- & _). simpl.
  destruct (find _ _) as [s|] eqn:E; [|reflexivity].
  apply find_some in E as [Hs _].
  rewrite Forall_forall in Hall. now apply Hall.
Qed.

Lemma toFixed3_unit_nearest (x : number) :
  unitInterval x = true ->
  exists n, nearestThousandth x n /\ (0 <= n <= 1000)%Z /\
            toFixed3 x = Some (fixed3 n).
Proof.
  destruct x as [s|s| |s m e]; try discriminate.
  - intros _. exists 0%Z. split; [reflexivity|]. split; [lia | reflexivity].
  - destruct s; [discriminate|]. intros H.
    destruct (unitInterval_thousandths m e H) as [A B].
    exists (thousandths m e).
    split; [apply thousandths_bounds|]. split; [exact B|].
    simpl. now rewrite A.
Qed.

(** X22: when the scores of a row lie between 0 and 1, every tooltip
    of its bar chart reads "Association Score: " followed by the value of
    that bar rounded to the nearest thousandth and printed with three
    fraction digits; the radar tooltips carry the target's symbol instead,
    and nothing before the value when the symbol is empty. *)
Theorem tooltips_of_row (row : AssociationRow.t) (v : number) :
  Forall (fun s => unitInterval (DatatypeScore.score s) = true)
         (AssociationRow.datatypeScores row) ->
  In v (data (barChartData row)) ->
  exists n,
    nearestThousandth v n /\
    (0 <= n <= 1000)%Z /\
    toFixed3 v = Some (fixed3 n) /\
    tooltipLabel (datasetLabel (barChartData row)) (Some v)
      = Some ("Association Score: " ++ fixed3 n)%string /\
    tooltipLabel (datasetLabel (radarChartData row)) (Some v)
      = Some (if String.eqb (Target.approvedSymbol (AssociationRow.target row)) ""
              then fixed3 n
              else (Target.approvedSymbol (AssociationRow.target row)
                    ++ ": " ++ fixed3 n)%string).
Proof.
  intros Hall Hin.
  destruct (toFixed3_unit_nearest v (chartData_unit row v Hall Hin))
    as (n & Hnear & Hn & E).
  exists n. split; [exact Hnear|]. split; [exact Hn|]. split; [exact E|].
  unfold tooltipLabel. simpl. rewrite E. split; [reflexivity|].
  destruct (String.eqb_spec
              (Target.approvedSymbol (AssociationRow.target row)) "")
    as [->|_]; simpl; [reflexivity|].
  now rewrite app_assoc_s.
Qed.

Lemma tooltips_of_row_witness :
  exists n, nearestThousandth js_0_8 n /\
            tooltipLabel "Association Score" (Some js_0_8)
              = Some ("Association Score: " ++ fixed3 n)%string /\
            tooltipLabel "EGFR" (Some js_0_8)
              = Some ("EGFR: " ++ fixed3 n)%string.
Proof.
  destruct (tooltips_of_row sparseRow js_0_8) as (n & Hnear & _ & _ & B & R).
  - repeat constructor.
  - simpl. right. right. now left.
  - exists n. split; [exact Hnear|]. split; [exact B | exact R].
Defined.

(** ** The number of listeners on the window *)

Lemma cleanup_length (i : nat) (m : Mounted) (w : World) :
  wellFormed w -> instances w i = Some m ->
  S (List.length (resizeListeners (runCleanup m w)))
    = List.length (resizeListeners w).
Proof.
  intros Hwf Hi.
  pose proof (cleanup_vacant i m w Hwf Hi) as (_ & _ & Hv & _).
  destruct Hwf as [F U O N].
  pose proof (O i) as Hown. rewrite Hi in Hown.
  assert (Hin : In (registered m) (resizeListeners w) /\
                (owner (registered m) =? i) = true).
  { apply (proj1 (filter_In (fun h => owner h =? i) (registered m)
                      (resizeListeners w))).
    fold (listenersOf i w). rewrite Hown. now left. }
  destruct Hin as [Hin Howner].
  rewrite <- (filter_length (fun h => owner h =? i) (resizeListeners w)).
  rewrite <- (filter_length (fun h => owner h =? i)
                (resizeListeners (runCleanup m w))).
  fold (listenersOf i w). fold (listenersOf i (runCleanup m w)).
  rewrite Hv, Hown. simpl. f_equal.
  unfold removeEventListener. f_equal.
  apply filter_absorb. intros k Hk Hkj. apply negb_true_iff.
  destruct (sameHandler (registered m) k) eqn:E; [exfalso|reflexivity].
  apply Nat.eqb_eq in E. rewrite <- (U _ _ Hin Hk E), Howner in Hkj.
  discriminate.
Qed.

Lemma effect_length (i : nat) (st : RowState) (w : World) :
  Forall (fun h => serial h < nextSerial w) (resizeListeners w) ->
  List.length (resizeListeners (runEffect i st w))
    = S (List.length (resizeListeners w)).
Proof.
  intros F. unfold runEffect; simpl.
  rewrite addEventListener_fresh by exact F.
  rewrite List.length_app. simpl. lia.
Qed.

(** X23: at every point that the table can reach, only mounting and
    unmounting change the number of resize listeners on the window: a
    mount adds one, an unmount removes one; toggles, tab selections,
    timers and resizes leave the number as it is. *)
Theorem listener_count (evs : list Event) (ev : Event) :
  let w := run evs emptyWorld in
  List.length (resizeListeners (step w ev)) =
    match ev with
    | Mount i =>
        match instances w i with
        | None => S (List.length (resizeListeners w))
        | Some _ => List.length (resizeListeners w)
        end
    | Unmount i =>
        match instances w i with
        | None => List.length (resizeListeners w)
        | Some _ => pred (List.length (resizeListeners w))
        end
    | User _ _ | TimerFires | WindowResize | CollapseExited _ =>
        List.length (resizeListeners w)
    end.
Proof.
  intros w.
  assert (Hwf : wellFormed w)
    by (apply run_wellFormed, emptyWorld_wellFormed).
  destruct ev as [i|i|i ev| | |i]; simpl.
  - destruct (instances w i) eqn:Hi; [reflexivity|].
    now rewrite effect_length by now destruct Hwf.
  - destruct (instances w i) as [m|] eqn:Hi; [|reflexivity].
    simpl. now rewrite <- (cleanup_length i m w Hwf Hi).
  - unfold update. destruct (instances w i) as [m|] eqn:Hi; [|reflexivity].
    destruct (sameDeps _ _); [reflexivity|].
    match goal with |- context [setPanel i ?b w] =>
      pose proof (setPanel_wellFormed i b w Hwf) as Hwf';
      pose proof (cleanup_length i m (setPanel i b w) Hwf' Hi) as L;
      pose proof (cleanup_vacant i m (setPanel i b w) Hwf' Hi) as (F & _)
    end.
    rewrite effect_length by exact F. exact L.
  - destruct (timers w) as [|h rest]; [reflexivity|].
    match goal with |- context [handleResize h ?x] =>
      destruct (handleResize_frame h x) as (A & _) end.
    now rewrite A.
  - destruct (dispatch_frame (resizeListeners w) w) as (A & _).
    now rewrite A.
  - destruct (instances w i) as [m|]; [|reflexivity].
    now destruct (open (rowState m)).
Qed.
